(** * mini_numpy: a shallow embedding of [Matrix] and [Vector]

    The two classes of [mini_numpy/_matrices.py] and [mini_numpy/_vectors.py]
    are embedded as Rocq functions.  A Python call that can raise returns a
    [result]; the one mutating method, [Matrix.__setitem__], returns the
    object after the call together with the outcome.

    Matrices hold Python [int]s, modelled as [Z].  Vectors are generic in
    their coordinates: the code only uses the numeric protocol, which is
    the type classes [PyNumber] ([+], [-], [*], [repr] and the [0] that
    [sum] starts from) and [PyDivision] ([/] and the [sum] of quotients)
    below.  Scalar operands are [int]s. *)

From Stdlib Require Import ZArith QArith DecimalString.
From stdpp Require Import base list strings.

Local Open Scope string_scope.
Local Open Scope Z_scope.
Local Open Scope nat_scope.
Local Open Scope list_scope.

(** ** Exceptions and results *)

(** The exceptions the two modules can raise, and [OverflowError], which
    [/] raises for two [int]s whose quotient is beyond the range of a
    float.  [ValueError] carries its message; the text of a [TypeError]
    names a Python type object and is not modelled. *)
Inductive exn : Type :=
| IndexError
| ZeroDivisionError
| OverflowError
| TypeError
| ValueError (msg : string).

Inductive result (A : Type) : Type :=
| Ok (a : A)
| Raise (e : exn).
Arguments Ok {A} a.
Arguments Raise {A} e.

Definition bind {A B : Type} (r : result A) (k : A -> result B) : result B :=
  match r with
  | Ok a => k a
  | Raise e => Raise e
  end.

Notation "x <- r ;; k" := (bind r (fun x => k))
  (at level 100, r at next level, right associativity,
   format "'[v' x  <-  r  ;;  '/' k ']'").

Definition succeeds {A : Type} (r : result A) : Prop :=
  exists a, r = Ok a.

(** ** Python sequences *)

(** [l[i]] accepts [-len(l) <= i < len(l)]; a negative [i] counts from the
    end.  [None] stands for the [IndexError] case. *)
Definition py_index (len : nat) (i : Z) : option nat :=
  if ((0 <=? i) && (i <? Z.of_nat len))%Z then Some (Z.to_nat i)
  else if ((- Z.of_nat len <=? i) && (i <? 0))%Z
       then Some (Z.to_nat (i + Z.of_nat len))
       else None.

(** [l[i]] *)
Definition list_getitem {A : Type} (l : list A) (i : Z) : result A :=
  match py_index (length l) i with
  | Some n =>
      match l !! n with
      | Some x => Ok x
      | None => Raise IndexError
      end
  | None => Raise IndexError
  end.

(** [l[i] = v] *)
Definition list_setitem {A : Type} (l : list A) (i : Z) (v : A)
  : result (list A) :=
  match py_index (length l) i with
  | Some n => Ok (<[n := v]> l)
  | None => Raise IndexError
  end.

(** [for x in xs: s = body(x, s)], stopping at the first exception. *)
Fixpoint for_each {X S : Type} (xs : list X) (body : X -> S -> result S)
    (s : S) : result S :=
  match xs with
  | [] => Ok s
  | x :: xs' => s' <- body x s ;; for_each xs' body s'
  end.

(** [list(map(f, xs))] for an [f] that can raise. *)
Fixpoint map_result {X Y : Type} (f : X -> result Y) (xs : list X)
  : result (list Y) :=
  match xs with
  | [] => Ok []
  | x :: xs' => y <- f x ;; ys <- map_result f xs' ;; Ok (y :: ys)
  end.

(** [enumerate(xs)] *)
Definition enumerate {X : Type} (xs : list X) : list (nat * X) :=
  zip (seq 0 (length xs)) xs.

(** [zip] applied to the unpacked rows: the tuples of the heads, then of the
    second elements, and so on, until the shortest row is exhausted;
    nothing for no rows. *)
Fixpoint zip_star {X : Type} (rows : list (list X)) : list (list X) :=
  match rows with
  | [] => []
  | [r] => map (fun x => [x]) r
  | r :: rest => zip_with cons r (zip_star rest)
  end.

(** ** Printing *)

(** [repr] of an [int]. *)
Definition repr_int (z : Z) : string :=
  NilZero.string_of_int (Z.to_int z).

Definition repr_nat (n : nat) : string := repr_int (Z.of_nat n).

(** [", ".join(xs)] *)
Fixpoint join_comma (xs : list string) : string :=
  match xs with
  | [] => ""
  | [x] => x
  | x :: xs' => x +:+ ", " +:+ join_comma xs'
  end.

(** [repr] of a list, given the [repr] of its elements. *)
Definition repr_list {X : Type} (repr_elt : X -> string) (xs : list X)
  : string :=
  "[" +:+ join_comma (map repr_elt xs) +:+ "]".

(** [repr] of a tuple, given the [repr] of its elements: a one-element
    tuple prints with a trailing comma. *)
Definition repr_tuple {X : Type} (repr_elt : X -> string) (xs : list X)
  : string :=
  match xs with
  | [x] => "(" +:+ repr_elt x +:+ ",)"
  | _ => "(" +:+ join_comma (map repr_elt xs) +:+ ")"
  end.

(** [sub] occurs inside [s]. *)
Definition contains (s sub : string) : Prop :=
  exists pre post, s = pre +:+ sub +:+ post.

(** ** Matrix *)

Module Matrix.

(** A [Matrix] object: the row list and the two sizes stored by
    [__init__].  [h] and [w] are attributes set once; [__setitem__]
    replaces a row of [coordinates] and leaves them alone. *)
Record t : Type := Build {
  coordinates : list (list Z);
  h : nat;
  w : nat
}.

Definition rows_message : string := "All rows must be the same length".

(** [__check_matrix__]: [self] is a [Matrix] by typing, so only the row
    lengths are checked. *)
Definition check_matrix (self : t) : result unit :=
  if existsb (fun row => negb (length row =? w self)) (coordinates self)
  then Raise (ValueError rows_message)
  else Ok tt.

(** [Matrix(m)]: [len(self.coordinates[0])] raises on an empty list. *)
Definition init (m : list (list Z)) : result t :=
  match m with
  | [] => Raise IndexError
  | r0 :: _ =>
      let self := {| coordinates := m; h := length m; w := length r0 |} in
      _ <- check_matrix self ;; Ok self
  end.

(** [__repr__] *)
Definition repr (self : t) : string :=
  "Matrix(" +:+ repr_list (repr_list repr_int) (coordinates self) +:+ ")".

(** [__getitem__] *)
Definition getitem (self : t) (idx : Z) : result (list Z) :=
  list_getitem (coordinates self) idx.

(** [__setitem__]: the object after the call, and the outcome.  The row
    is stored first and the matrix checked afterwards; when the store
    itself raises, the object is unchanged. *)
Definition setitem (self : t) (idx : Z) (value : list Z)
  : t * result unit :=
  match list_setitem (coordinates self) idx value with
  | Ok rows' =>
      let self' := {| coordinates := rows'; h := h self; w := w self |} in
      (self', check_matrix self')
  | Raise e => (self, Raise e)
  end.

(** [shape] *)
Definition shape (self : t) : result (nat * nat) :=
  match coordinates self with
  | [] => Raise IndexError
  | r0 :: _ => Ok (length (coordinates self), length r0)
  end.

Definition repr_shape (s : nat * nat) : string :=
  "(" +:+ repr_nat (fst s) +:+ ", " +:+ repr_nat (snd s) +:+ ")".

(** [__neg__] *)
Definition neg (self : t) : result t :=
  init (map (fun a => map Z.opp a) (coordinates self)).

Definition shape_eqb (s1 s2 : nat * nat) : bool :=
  (fst s1 =? fst s2) && (snd s1 =? snd s2).

(** The message of the [ValueError] of [__add__] and [__sub__]. *)
Definition same_shape_message (self other : t) : result string :=
  s_self <- shape self ;;
  s_other <- shape other ;;
  Ok ("Matrices must be the same shape. "
      +:+ "Shape of " +:+ repr self +:+ " is " +:+ repr_shape s_self +:+ " "
      +:+ "and shape of " +:+ repr other +:+ " is " +:+ repr_shape s_other).

(** [__add__]: the sums are [x + y] with [x] from [other], [y] from
    [self]. *)
Definition add (self other : t) : result t :=
  s_other <- shape other ;;
  s_self <- shape self ;;
  if shape_eqb s_other s_self then
    init (zip_with (fun a b => zip_with Z.add a b)
            (coordinates other) (coordinates self))
  else
    msg <- same_shape_message self other ;; Raise (ValueError msg).

(** [__sub__] *)
Definition sub (self other : t) : result t :=
  s_other <- shape other ;;
  s_self <- shape self ;;
  if shape_eqb s_other s_self then
    n <- neg other ;; add self n
  else
    msg <- same_shape_message self other ;; Raise (ValueError msg).

(** [transpose] *)
Definition transpose (self : t) : result t :=
  init (zip_star (coordinates self)).

(** [get_col] *)
Definition get_col (self : t) (col : Z) : result (list Z) :=
  map_result (fun x => list_getitem x col) (coordinates self).

(** [sum(a * b for a, b in zip(row, col))]; [sum] starts from [0] and
    adds from the left. *)
Definition dot (row col : list Z) : Z :=
  fold_left Z.add (zip_with Z.mul row col) 0%Z.

(** [result[i][j] = v] on a list of distinct row lists. *)
Definition store (buffer : list (list Z)) (i j : nat) (v : Z)
  : result (list (list Z)) :=
  row <- list_getitem buffer (Z.of_nat i) ;;
  row' <- list_setitem row (Z.of_nat j) v ;;
  Ok (<[i := row']> buffer).

(** The right operand of [*]. *)
Inductive operand : Type :=
| OMatrix (m : t)
| ONumber (k : Z)
| OOther.

Definition compatible_message (self other : t) : result string :=
  s_self <- shape self ;;
  s_other <- shape other ;;
  Ok ("Matrices must be compatible "
      +:+ "for matrix multiplication. "
      +:+ "Shape of " +:+ repr self +:+ " is " +:+ repr_shape s_self +:+ " "
      +:+ "and shape of " +:+ repr other +:+ " is " +:+ repr_shape s_other).

(** The buffer [[[0 for i in range(self.h)] for j in range(other.w)]]:
    [other.w] rows of [self.h] zeros. *)
Definition zeros (self other : t) : list (list Z) :=
  map (fun _ => map (fun _ => 0%Z) (seq 0 (h self))) (seq 0 (w other)).

(** The two nested loops of the matrix branch of [__mul__].  The right
    side of the assignment is evaluated before the target is indexed. *)
Definition mul_loops (self other : t) (buffer : list (list Z))
  : result (list (list Z)) :=
  for_each (enumerate (coordinates self))
    (fun '(i, row_a) res =>
       for_each (seq 0 (w other))
         (fun j res' =>
            col <- get_col other (Z.of_nat j) ;;
            store res' i j (dot row_a col))
         res)
    buffer.

(** [__mul__] *)
Definition mul (self : t) (other : operand) : result t :=
  match other with
  | OMatrix other =>
      if w self =? h other then
        res <- mul_loops self other (zeros self other) ;;
        init res
      else
        msg <- compatible_message self other ;; Raise (ValueError msg)
  | ONumber k =>
      init (map (fun a => map (fun x => x * k)%Z a) (coordinates self))
  | OOther => Raise TypeError
  end.

(** The matrices a program can hold right after construction:
    [Matrix(rows)] returned [m]. *)
Definition constructed (m : t) : Prop :=
  exists rows, init rows = Ok m.

End Matrix.

(** The row lists that [Matrix.init] accepts: at least one row, all rows
    as long as the first. *)
Definition rectangular (rows : list (list Z)) (height width : nat) : Prop :=
  length rows = height /\ 0 < height
  /\ Forall (fun row => length row = width) rows.

(** A row list of [height] rows, each of length [width]; the buffer of the
    matrix product is one, possibly with no rows. *)
Definition sized (rows : list (list Z)) (height width : nat) : Prop :=
  length rows = height /\ Forall (fun row => length row = width) rows.

(** ** Numbers of a vector *)

(** What [Vector] asks of its coordinates for [+], [-], [*] and [repr]: the
    binary operators, the [0] that [sum] starts from, the product with an
    [int] scalar, and [repr]. *)
Class PyNumber (A : Type) : Type := {
  py_zero : A;
  py_add : A -> A -> A;
  py_sub : A -> A -> A;
  py_mul : A -> A -> A;
  py_mul_int : A -> Z -> A;
  py_repr : A -> string
}.

(** What [Vector] asks of its coordinates for [/].  A quotient of two
    coordinates of type [A] is a number of a type [B], which need not be
    [A] (two [int]s give a float), or an exception; nothing is assumed
    about when [/] raises.  [py_is_zero b] is [b == 0];
    [py_truediv_int a k] is [a / k] for an [int] scalar [k];
    [py_sum_of qs] is what [sum] returns for the quotients [qs]. *)
Class PyDivision (A B : Type) : Type := {
  py_is_zero : A -> bool;
  py_truediv : A -> A -> result B;
  py_truediv_int : A -> Z -> result B;
  py_sum_of : list B -> B
}.

(** *** Coordinates of type [fractions.Fraction]: exact rationals *)

#[export] Instance Q_number : PyNumber Q := {|
  py_zero := 0%Q;
  py_add := Qplus;
  py_sub := Qminus;
  py_mul := Qmult;
  py_mul_int := fun q k => Qmult q (inject_Z k);
  py_repr := fun q =>
    "Fraction(" +:+ repr_int (Qnum (Qred q)) +:+ ", "
    +:+ repr_int (Z.pos (Qden (Qred q))) +:+ ")"
|}.

(** A quotient of two [Fraction]s is a [Fraction]; [/] raises
    [ZeroDivisionError] for a zero divisor and nothing else; [sum] adds
    from the left, starting from [0]. *)
#[export] Instance Q_division : PyDivision Q Q := {|
  py_is_zero := fun q => (Qnum q =? 0)%Z;
  py_truediv := fun a b =>
    if (Qnum b =? 0)%Z then Raise ZeroDivisionError else Ok (Qdiv a b);
  py_truediv_int := fun a k =>
    if (k =? 0)%Z then Raise ZeroDivisionError
    else Ok (Qdiv a (inject_Z k));
  py_sum_of := fun qs => fold_left Qplus qs 0%Q
|}.

(** *** Coordinates of type [int] *)

#[export] Instance int_number : PyNumber Z := {|
  py_zero := 0%Z;
  py_add := Z.add;
  py_sub := Z.sub;
  py_mul := Z.mul;
  py_mul_int := Z.mul;
  py_repr := repr_int
|}.

(** The floats that [/] and [sum] return for [int]s, kept as the
    expressions that produce them: the rounding of a float is not
    modelled, only whether there is one. *)
#[warning="-register-all"]
Inductive float_value : Type :=
| FQuotient (a b : Z)
| FSum (qs : list float_value).

(** [a / b] for [int]s is the quotient rounded to the nearest float, ties
    to even; the largest float is [2^1024 - 2^971], so a quotient of
    magnitude [2^1024 - 2^970] or more has no float. *)
Definition beyond_float (a b : Z) : bool :=
  ((2 ^ 1024 - 2 ^ 970) * Z.abs b <=? Z.abs a)%Z.

(** [a / b] for [int]s: [ZeroDivisionError] for [b == 0], [OverflowError]
    for a quotient beyond the floats, a float otherwise. *)
Definition int_truediv (a b : Z) : result float_value :=
  if (b =? 0)%Z then Raise ZeroDivisionError
  else if beyond_float a b then Raise OverflowError
  else Ok (FQuotient a b).

#[export] Instance int_division : PyDivision Z float_value := {|
  py_is_zero := fun b => (b =? 0)%Z;
  py_truediv := int_truediv;
  py_truediv_int := int_truediv;
  py_sum_of := FSum
|}.

(** ** Vector *)

Module Vector.

(** A [Vector] object: the tuple given to [__init__], stored as it is. *)
Record t (A : Type) : Type := Build { coordinates : list A }.
Arguments Build {A} coordinates.
Arguments coordinates {A} _.

(** The right operand of [*] and [/]: a vector, an [int], or an object of
    another type. *)
Inductive operand (A : Type) : Type :=
| OVector (v : t A)
| OScalar (k : Z)
| OOther.
Arguments OVector {A} v.
Arguments OScalar {A} k.
Arguments OOther {A}.

(** What [*] and [/] return: a vector or a number. *)
Inductive value (X : Type) : Type :=
| VVector (v : t X)
| VScalar (x : X).
Arguments VVector {X} v.
Arguments VScalar {X} x.

Section WithNumber.

Context {A : Type} `{PyNumber A}.

(** [__repr__] *)
Definition repr (self : t A) : string :=
  "Vector" +:+ repr_tuple py_repr (coordinates self).

Definition cannot_multiply (self other : t A) : string :=
  "Cannot multiply " +:+ repr self +:+ " and " +:+ repr other.

(** [__add__]: [a + b] with [a] from [other], [b] from [self]. *)
Definition add (self other : t A) : t A :=
  Build (zip_with (fun a b => py_add a b)
           (coordinates other) (coordinates self)).

(** [__sub__]: [a - b] with [a] from [self], [b] from [other]. *)
Definition sub (self other : t A) : t A :=
  Build (zip_with (fun a b => py_sub a b)
           (coordinates self) (coordinates other)).

(** [sum(xs)]: starts from [0] and adds from the left. *)
Definition py_sum (xs : list A) : A := fold_left py_add xs py_zero.

(** [__mul__] *)
Definition mul (self : t A) (other : operand A) : result (value A) :=
  match other with
  | OVector other =>
      if length (coordinates other) =? length (coordinates self) then
        Ok (VScalar (py_sum (zip_with (fun a b => py_mul a b)
                               (coordinates other) (coordinates self))))
      else Raise (ValueError (cannot_multiply self other))
  | OScalar k =>
      Ok (VVector (Build (map (fun a => py_mul_int a k) (coordinates self))))
  | OOther => Raise TypeError
  end.

Context {B : Type} `{PyDivision A B}.

(** [__truediv__].  In the vector branch [sum] draws the quotients
    [a / b] from the generator one at a time, in the order of the
    coordinates, so the first quotient that raises ends the call; when
    none does, the call returns their [sum]. *)
Definition truediv (self : t A) (other : operand A) : result (value B) :=
  match other with
  | OVector other =>
      if length (coordinates other) =? length (coordinates self) then
        qs <- map_result (fun '(a, b) => py_truediv a b)
                (zip (coordinates self) (coordinates other)) ;;
        Ok (VScalar (py_sum_of qs))
      else Raise (ValueError (cannot_multiply self other))
  | OScalar k =>
      cs <- map_result (fun a => py_truediv_int a k) (coordinates self) ;;
      Ok (VVector (Build cs))
  | OOther => Raise TypeError
  end.

End WithNumber.
End Vector.

(** * Properties *)

(** ** Indexing *)

Lemma py_index_lt (len : nat) (i : Z) (n : nat) :
  py_index len i = Some n -> n < len.
Proof.
  unfold py_index.
  destruct ((0 <=? i) && (i <? Z.of_nat len))%Z eqn:Hin.
  - apply andb_true_iff in Hin as [H0 H1].
    intros [= <-]. lia.
  - destruct ((- Z.of_nat len <=? i) && (i <? 0))%Z eqn:Hneg; [|discriminate].
    apply andb_true_iff in Hneg as [H0 H1].
    intros [= <-]. lia.
Qed.

Lemma py_index_of_nat (len n : nat) :
  py_index len (Z.of_nat n) = if decide (n < len) then Some n else None.
Proof.
  unfold py_index. case_decide as Hn.
  - replace ((0 <=? Z.of_nat n) && (Z.of_nat n <? Z.of_nat len))%Z
      with true by (symmetry; apply andb_true_iff; lia).
    by rewrite Nat2Z.id.
  - replace ((0 <=? Z.of_nat n) && (Z.of_nat n <? Z.of_nat len))%Z
      with false by (symmetry; apply andb_false_iff; lia).
    replace ((- Z.of_nat len <=? Z.of_nat n) && (Z.of_nat n <? 0))%Z
      with false by (symmetry; apply andb_false_iff; lia).
    done.
Qed.

Lemma list_getitem_of_nat {A : Type} (l : list A) (n : nat) :
  list_getitem l (Z.of_nat n)
  = match l !! n with Some x => Ok x | None => Raise IndexError end.
Proof.
  unfold list_getitem. rewrite py_index_of_nat. case_decide as Hn; [done|].
  by rewrite lookup_ge_None_2 by lia.
Qed.

Lemma list_setitem_of_nat {A : Type} (l : list A) (n : nat) (v : A) :
  list_setitem l (Z.of_nat n) v
  = if decide (n < length l) then Ok (<[n := v]> l) else Raise IndexError.
Proof.
  unfold list_setitem. rewrite py_index_of_nat. by case_decide.
Qed.

(** Reading back the slot that [l[i] = v] wrote. *)
Lemma list_getitem_setitem {A : Type} (l l' : list A) (i : Z) (v : A) :
  list_setitem l i v = Ok l' -> list_getitem l' i = Ok v.
Proof.
  unfold list_setitem, list_getitem.
  destruct (py_index (length l) i) as [n|] eqn:Hi; [|discriminate].
  intros [= <-]. rewrite length_insert, Hi.
  by rewrite list_lookup_insert_eq by (by eapply py_index_lt).
Qed.

(** ** The row check *)

Lemma check_matrix_ok (m : Matrix.t) :
  Matrix.check_matrix m = Ok tt
  <-> Forall (fun row => length row = Matrix.w m) (Matrix.coordinates m).
Proof.
  unfold Matrix.check_matrix.
  destruct (existsb _ _) eqn:Hex.
  - split; [discriminate|]. intros Hall.
    apply existsb_exists in Hex as (row & Hin & Hrow).
    rewrite Forall_forall in Hall.
    apply list_elem_of_In, Hall in Hin.
    apply negb_true_iff, Nat.eqb_neq in Hrow. done.
  - split; [|done]. intros _. apply Forall_forall. intros row Hin.
    destruct (decide (length row = Matrix.w m)) as [|Hne]; [done|].
    assert (existsb (fun row => negb (length row =? Matrix.w m))
              (Matrix.coordinates m) = true) as Habs; [|congruence].
    apply existsb_exists. exists row. split; [by apply list_elem_of_In|].
    by apply negb_true_iff, Nat.eqb_neq.
Qed.

Lemma check_matrix_bad_row (m : Matrix.t) (row : list Z) :
  row ∈ Matrix.coordinates m -> length row ≠ Matrix.w m ->
  Matrix.check_matrix m = Raise (ValueError Matrix.rows_message).
Proof.
  intros Hin Hne. unfold Matrix.check_matrix.
  replace (existsb _ _) with true; [done|].
  symmetry. apply existsb_exists. exists row.
  split; [by apply list_elem_of_In|]. by apply negb_true_iff, Nat.eqb_neq.
Qed.

Lemma init_ok (rows : list (list Z)) (m : Matrix.t) :
  Matrix.init rows = Ok m
  <-> m = Matrix.Build rows (Matrix.h m) (Matrix.w m)
      /\ rectangular rows (Matrix.h m) (Matrix.w m).
Proof.
  destruct m as [rows' hh ww]. unfold Matrix.init, rectangular. simpl.
  destruct rows as [|r0 rest].
  - split; [discriminate|]. intros (_ & Hlen & Hpos & _). simpl in Hlen. lia.
  - set (self := Matrix.Build _ _ _).
    destruct (Matrix.check_matrix self) as [[]|e] eqn:Hchk; simpl.
    + apply check_matrix_ok in Hchk. unfold self in *. simpl in Hchk. split.
      * intros [= <- <- <-]. repeat split; [lia|done].
      * intros ([= ->] & Hlen & _ & Hall). inversion Hall; subst. done.
    + split; [discriminate|]. intros ([= ->] & Hlen & _ & Hall).
      assert (Matrix.check_matrix self = Ok tt) as Hok; [|congruence].
      apply check_matrix_ok. unfold self. simpl.
      inversion Hall as [|? ? Hr0 Hrest]; subst. by constructor.
Qed.

Lemma init_rectangular (rows : list (list Z)) (height width : nat) :
  rectangular rows height width ->
  Matrix.init rows = Ok (Matrix.Build rows height width).
Proof. intros Hrect. by apply init_ok. Qed.

Lemma constructed_rectangular (m : Matrix.t) :
  Matrix.constructed m
  <-> rectangular (Matrix.coordinates m) (Matrix.h m) (Matrix.w m).
Proof.
  split.
  - intros [rows Hinit]. apply init_ok in Hinit as [Hm Hrect].
    by rewrite Hm.
  - intros Hrect. exists (Matrix.coordinates m).
    destruct m as [rows hh ww]. by apply init_rectangular.
Qed.

Lemma shape_constructed (m : Matrix.t) :
  Matrix.constructed m -> Matrix.shape m = Ok (Matrix.h m, Matrix.w m).
Proof.
  intros (Hlen & Hpos & Hall)%constructed_rectangular.
  unfold Matrix.shape. destruct (Matrix.coordinates m) as [|r0 rest].
  - simpl in Hlen. lia.
  - inversion Hall as [|? ? Hr0 Hrest]; subst. by rewrite Hlen, Hr0.
Qed.

(** ** Row replacement *)

(** C3: replacing the row at a valid index [idx] of [m] by a row [r] whose
    length differs from the width of [m] raises the [ValueError] of the row
    check, and after the failed call [m[idx]] is [r]: the row is stored
    before the check and stays. *)
Theorem setitem_wrong_length_raises_row_kept
    (m : Matrix.t) (idx : Z) (r : list Z) (n : nat) :
  py_index (length (Matrix.coordinates m)) idx = Some n ->
  length r ≠ Matrix.w m ->
  snd (Matrix.setitem m idx r) = Raise (ValueError Matrix.rows_message)
  /\ Matrix.getitem (fst (Matrix.setitem m idx r)) idx = Ok r.
Proof.
  intros Hidx Hlen. unfold Matrix.setitem.
  destruct (list_setitem (Matrix.coordinates m) idx r) as [rows'|e] eqn:Hset.
  - simpl. split.
    + apply check_matrix_bad_row with (row := r); [|done]. simpl.
      unfold list_setitem in Hset. rewrite Hidx in Hset.
      injection Hset as <-. apply list_elem_of_lookup. exists n.
      apply list_lookup_insert_eq. by eapply py_index_lt.
    + unfold Matrix.getitem. simpl. by eapply list_getitem_setitem.
  - unfold list_setitem in Hset. by rewrite Hidx in Hset.
Qed.

Lemma setitem_wrong_length_raises_row_kept_witness :
  let m := Matrix.Build [[1; 2; 3]; [4; 5; 6]]%Z 2 3 in
  let r := [460; 5; 6; 7]%Z in
  Matrix.init [[1; 2; 3]; [4; 5; 6]]%Z = Ok m
  /\ snd (Matrix.setitem m 1 r) = Raise (ValueError Matrix.rows_message)
  /\ Matrix.getitem (fst (Matrix.setitem m 1 r)) 1 = Ok r.
Proof.
  split; [reflexivity|].
  apply (setitem_wrong_length_raises_row_kept
           (Matrix.Build [[1; 2; 3]; [4; 5; 6]]%Z 2 3) 1
           [460; 5; 6; 7]%Z 1).
  - reflexivity.
  - simpl. lia.
Defined.

(** ** Vectors *)

Section VectorFacts.

Context {A : Type} `{PyNumber A}.

Local Abbreviation coords := Vector.coordinates.

(** C4: for vectors [u] and [v] of different lengths neither [u + v] nor
    [u - v] raises; each is a vector as long as the shorter operand,
    whose coordinate [i] pairs [u[i]] with [v[i]]: [v[i] + u[i]] for the
    sum and [u[i] - v[i]] for the difference. *)
Theorem add_sub_pair_up_to_shorter (u v : Vector.t A) :
  length (coords u) ≠ length (coords v) ->
  length (coords (Vector.add u v))
  = Nat.min (length (coords u)) (length (coords v))
  /\ length (coords (Vector.sub u v))
     = Nat.min (length (coords u)) (length (coords v))
  /\ forall (i : nat) (a b : A),
       coords u !! i = Some a -> coords v !! i = Some b ->
       coords (Vector.add u v) !! i = Some (py_add b a)
       /\ coords (Vector.sub u v) !! i = Some (py_sub a b).
Proof.
  intros _. unfold Vector.add, Vector.sub. simpl.
  rewrite !length_zip_with. split; [lia|]. split; [lia|].
  intros i a b Hu Hv. rewrite !lookup_zip_with. by rewrite Hu, Hv.
Qed.

End VectorFacts.


Lemma add_sub_pair_up_to_shorter_witness :
  let u := Vector.Build [1; 2; 3]%Q in
  let v := Vector.Build [4; 5]%Q in
  length (Vector.coordinates (Vector.add u v)) = 2
  /\ length (Vector.coordinates (Vector.sub u v)) = 2
  /\ forall (i : nat) (a b : Q),
       Vector.coordinates u !! i = Some a ->
       Vector.coordinates v !! i = Some b ->
       Vector.coordinates (Vector.add u v) !! i = Some (py_add b a)
       /\ Vector.coordinates (Vector.sub u v) !! i = Some (py_sub a b).
Proof.
  apply (add_sub_pair_up_to_shorter
           (Vector.Build [1; 2; 3]%Q) (Vector.Build [4; 5]%Q)).
  simpl. lia.
Defined.

(** ** Division of vectors *)

(** A list built element by element without an exception. *)
Lemma map_result_by_position {X Y : Type} (f : X -> result Y)
    (xs : list X) (ys : list Y) :
  length ys = length xs ->
  (forall (i : nat) (x : X),
     xs !! i = Some x -> exists y, f x = Ok y /\ ys !! i = Some y) ->
  map_result f xs = Ok ys.
Proof.
  revert ys. induction xs as [|x xs IH]; intros [|y ys] Hlen Hall; try done.
  destruct (Hall 0 x eq_refl) as (y' & Hy' & [= <-]).
  simpl. rewrite Hy'. simpl. rewrite (IH ys); [done| |].
  - simpl in Hlen. lia.
  - intros i x' Hx'. apply (Hall (S i) x' Hx').
Qed.



Section VectorDivisionFacts.

Context {A B : Type} `{PyNumber A} `{PyDivision A B}.

Local Abbreviation coords := Vector.coordinates.

(** C5, as the code has it: for vectors [u] and [v] of equal length for
    which every quotient [u[i] / v[i]] evaluates without raising, to
    [qs[i]], [u / v] returns the [sum] of these quotients, the numerator
    of each taken from [u]; for vectors of unequal length it raises the
    [ValueError]. *)
Theorem truediv_vectors_quotient_sum (u v : Vector.t A) :
  (length (coords u) = length (coords v) ->
   forall qs : list B,
     length qs = length (coords u) ->
     (forall (i : nat) (a b : A),
        coords u !! i = Some a -> coords v !! i = Some b ->
        exists q, py_truediv a b = Ok q /\ qs !! i = Some q) ->
     Vector.truediv u (Vector.OVector v)
     = Ok (Vector.VScalar (py_sum_of qs)))
  /\ (length (coords u) ≠ length (coords v) ->
      Vector.truediv u (Vector.OVector v)
      = Raise (ValueError (Vector.cannot_multiply u v))).
Proof.
  unfold Vector.truediv. split.
  - intros Hlen qs Hqs Hquot.
    replace (length (coords v) =? length (coords u)) with true
      by (symmetry; apply Nat.eqb_eq; lia).
    rewrite (map_result_by_position _ _ qs); [done| |].
    + rewrite length_zip_with. lia.
    + intros i [a b] Hab.
      apply lookup_zip_with_Some in Hab as (a' & b' & [= <- <-] & Ha & Hb).
      by apply (Hquot i).
  - intros Hlen.
    replace (length (coords v) =? length (coords u)) with false
      by (symmetry; apply Nat.eqb_neq; lia).
    done.
Qed.


End VectorDivisionFacts.

(** The claim C5 read for all vectors of equal length fails where a
    quotient raises: with [Fraction] coordinates,
    [Vector((1,)) / Vector((0,))] raises [ZeroDivisionError]; with [int]
    coordinates, [Vector((10**400,)) / Vector((1,))], whose divisor is not
    zero, raises [OverflowError].  Neither returns a sum. *)
Lemma truediv_vectors_zero_divisor_counterexample :
  let u := Vector.Build [1%Q] in
  let v := Vector.Build [0%Q] in
  let big := Vector.Build [10 ^ 400]%Z in
  let one := Vector.Build [1]%Z in
  (length (Vector.coordinates u) = length (Vector.coordinates v)
   /\ Vector.truediv u (Vector.OVector v)
      = (Raise ZeroDivisionError : result (Vector.value Q))
   /\ forall x : Q,
        Vector.truediv u (Vector.OVector v) ≠ Ok (Vector.VScalar x))
  /\ (length (Vector.coordinates big) = length (Vector.coordinates one)
      /\ Vector.truediv big (Vector.OVector one)
         = (Raise OverflowError : result (Vector.value float_value))).
Proof.
  split; [split; [reflexivity|]; split; [reflexivity|]; intros x; discriminate|].
  split; [reflexivity|]. vm_compute. reflexivity.
Qed.

Lemma truediv_vectors_quotient_sum_witness :
  let u := Vector.Build [1; 2; 3]%Q in
  let v := Vector.Build [4; 5; 6]%Q in
  let s := Vector.Build [4; 5]%Q in
  Vector.truediv u (Vector.OVector v)
  = Ok (Vector.VScalar (py_sum_of [1 # 4; 2 # 5; 3 # 6]%Q))
  /\ Vector.truediv u (Vector.OVector s)
     = (Raise (ValueError (Vector.cannot_multiply u s))
        : result (Vector.value Q)).
Proof.
  split.
  - apply (proj1 (truediv_vectors_quotient_sum
                    (Vector.Build [1; 2; 3]%Q) (Vector.Build [4; 5; 6]%Q))
             eq_refl [1 # 4; 2 # 5; 3 # 6]%Q eq_refl).
    intros i a b Ha Hb.
    destruct i as [|[|[|i]]]; simpl in Ha, Hb; try discriminate;
      injection Ha as <-; injection Hb as <-; eexists; split; reflexivity.
  - apply (proj2 (truediv_vectors_quotient_sum
                    (Vector.Build [1; 2; 3]%Q) (Vector.Build [4; 5]%Q))).
    simpl. lia.
Defined.



(** ** Matrices of one shape *)

Lemma shape_eqb_eq (s1 s2 : nat * nat) :
  Matrix.shape_eqb s1 s2 = true <-> s1 = s2.
Proof.
  destruct s1 as [h1 w1], s2 as [h2 w2]. unfold Matrix.shape_eqb. simpl.
  rewrite andb_true_iff, !Nat.eqb_eq. split.
  - by intros [-> ->].
  - by intros [= -> ->].
Qed.

Lemma rectangular_zip_with (f : list Z -> list Z -> list Z)
    (rows1 rows2 : list (list Z)) (height width : nat) :
  rectangular rows1 height width -> rectangular rows2 height width ->
  (forall r1 r2, length r1 = width -> length r2 = width ->
                 length (f r1 r2) = width) ->
  rectangular (zip_with f rows1 rows2) height width.
Proof.
  intros (Hlen1 & Hpos & Hall1) (Hlen2 & _ & Hall2) Hf.
  split; [rewrite length_zip_with; lia|]. split; [done|].
  apply Forall_lookup. intros i row Hrow.
  apply lookup_zip_with_Some in Hrow as (r1 & r2 & -> & Hr1 & Hr2).
  rewrite Forall_lookup in Hall1, Hall2. eauto.
Qed.

Lemma rectangular_map (f : list Z -> list Z)
    (rows : list (list Z)) (height width : nat) :
  rectangular rows height width ->
  (forall r, length r = width -> length (f r) = width) ->
  rectangular (map f rows) height width.
Proof.
  intros (Hlen & Hpos & Hall) Hf.
  split; [by rewrite length_map|]. split; [done|].
  apply Forall_map. eapply Forall_impl; [exact Hall|]. apply Hf.
Qed.

(** [__add__] on two constructed matrices of one shape. *)
Lemma add_same_shape (a b : Matrix.t) :
  Matrix.constructed a -> Matrix.constructed b ->
  Matrix.h a = Matrix.h b -> Matrix.w a = Matrix.w b ->
  Matrix.add a b
  = Ok (Matrix.Build
          (zip_with (zip_with Z.add)
             (Matrix.coordinates b) (Matrix.coordinates a))
          (Matrix.h a) (Matrix.w a)).
Proof.
  intros Ha Hb Hh Hw. unfold Matrix.add.
  rewrite (shape_constructed a Ha), (shape_constructed b Hb). simpl.
  replace (Matrix.shape_eqb _ _) with true
    by (symmetry; apply shape_eqb_eq; congruence).
  apply constructed_rectangular in Ha, Hb. rewrite <- Hh, <- Hw in Hb.
  apply init_rectangular, rectangular_zip_with; [done..|].
  intros r1 r2 Hr1 Hr2. rewrite length_zip_with. lia.
Qed.

(** [__neg__] on a constructed matrix. *)
Lemma neg_constructed (b : Matrix.t) :
  Matrix.constructed b ->
  Matrix.neg b
  = Ok (Matrix.Build (map (map Z.opp) (Matrix.coordinates b))
          (Matrix.h b) (Matrix.w b)).
Proof.
  intros Hb%constructed_rectangular. unfold Matrix.neg.
  apply init_rectangular, rectangular_map; [done|].
  intros r Hr. by rewrite length_map.
Qed.

Lemma constructed_build (rows : list (list Z)) (height width : nat) :
  rectangular rows height width ->
  Matrix.constructed (Matrix.Build rows height width).
Proof. intros Hrect. by apply constructed_rectangular. Qed.

(** [__sub__] on two constructed matrices of one shape. *)
Lemma sub_same_shape (a b : Matrix.t) :
  Matrix.constructed a -> Matrix.constructed b ->
  Matrix.h a = Matrix.h b -> Matrix.w a = Matrix.w b ->
  Matrix.sub a b
  = Ok (Matrix.Build
          (zip_with (zip_with Z.add)
             (map (map Z.opp) (Matrix.coordinates b)) (Matrix.coordinates a))
          (Matrix.h a) (Matrix.w a)).
Proof.
  intros Ha Hb Hh Hw. unfold Matrix.sub.
  rewrite (shape_constructed a Ha), (shape_constructed b Hb). simpl.
  replace (Matrix.shape_eqb _ _) with true
    by (symmetry; apply shape_eqb_eq; congruence).
  rewrite (neg_constructed b Hb). simpl.
  rewrite add_same_shape; [done|done| |done..].
  apply constructed_build, rectangular_map.
  - by apply constructed_rectangular.
  - intros r Hr. by rewrite length_map.
Qed.

Lemma row_add_opp_cancel (rb ra : list Z) :
  length rb = length ra ->
  zip_with Z.add (map Z.opp rb) (zip_with Z.add rb ra) = ra.
Proof.
  revert ra. induction rb as [|y rb IH]; intros [|x ra] Hlen; try done.
  simpl. f_equal; [lia|]. apply IH. simpl in Hlen. lia.
Qed.

Lemma rows_add_opp_cancel (cb ca : list (list Z)) :
  Forall2 (fun rb ra => length rb = length ra) cb ca ->
  zip_with (zip_with Z.add) (map (map Z.opp) cb)
    (zip_with (zip_with Z.add) cb ca) = ca.
Proof.
  induction 1 as [|rb ra cb ca Hr Hrest IH]; [done|].
  simpl. f_equal; [by apply row_add_opp_cancel|done].
Qed.

Lemma rectangular_same_lengths (cb ca : list (list Z)) (height width : nat) :
  rectangular cb height width -> rectangular ca height width ->
  Forall2 (fun rb ra => length rb = length ra) cb ca.
Proof.
  intros (Hlenb & _ & Hallb) (Hlena & _ & Halla).
  apply Forall2_same_length_lookup. split; [congruence|].
  intros i rb ra Hrb Hra. rewrite Forall_lookup in Hallb, Halla.
  rewrite (Hallb i rb Hrb), (Halla i ra Hra). done.
Qed.

(** C8: for constructed matrices [a] and [b] of one shape, [a + b]
    succeeds and [(a + b) - b] returns a matrix equal to [a]: the same
    rows with the same integers, and the same stored sizes. *)
Theorem add_then_sub_is_identity (a b : Matrix.t) :
  Matrix.constructed a -> Matrix.constructed b ->
  Matrix.shape a = Matrix.shape b ->
  exists s, Matrix.add a b = Ok s /\ Matrix.sub s b = Ok a.
Proof.
  intros Ha Hb Hshape.
  rewrite (shape_constructed a Ha), (shape_constructed b Hb) in Hshape.
  injection Hshape as Hh Hw.
  eexists. split; [by apply add_same_shape|].
  pose proof Ha as Hra%constructed_rectangular.
  pose proof Hb as Hrb%constructed_rectangular.
  rewrite <- Hh, <- Hw in Hrb.
  rewrite sub_same_shape; simpl; [|
    apply constructed_build, rectangular_zip_with; [done..|];
    intros r1 r2 Hr1 Hr2; rewrite length_zip_with; lia
    | done..].
  rewrite rows_add_opp_cancel by (by eapply rectangular_same_lengths).
  by destruct a.
Qed.

Lemma add_then_sub_is_identity_witness :
  let a := Matrix.Build [[1; 2; 3]; [4; 5; 6]]%Z 2 3 in
  let b := Matrix.Build [[10; 20; 30]; [40; 50; 60]]%Z 2 3 in
  exists s, Matrix.add a b = Ok s /\ Matrix.sub s b = Ok a.
Proof.
  apply (add_then_sub_is_identity
           (Matrix.Build [[1; 2; 3]; [4; 5; 6]]%Z 2 3)
           (Matrix.Build [[10; 20; 30]; [40; 50; 60]]%Z 2 3)).
  - exists [[1; 2; 3]; [4; 5; 6]]%Z. reflexivity.
  - exists [[10; 20; 30]; [40; 50; 60]]%Z. reflexivity.
  - reflexivity.
Defined.

(** ** Messages *)

Lemma string_app_assoc (s1 s2 s3 : string) :
  (s1 +:+ s2) +:+ s3 = s1 +:+ s2 +:+ s3.
Proof.
  induction s1 as [|c s1 IH]; [done|].
  change (String c ((s1 +:+ s2) +:+ s3) = String c (s1 +:+ s2 +:+ s3)).
  by rewrite IH.
Qed.

Lemma string_app_nil_r (s : string) : s +:+ "" = s.
Proof.
  induction s as [|c s IH]; [done|].
  change (String c (s +:+ "") = String c s). by rewrite IH.
Qed.

Lemma contains_here (sub post : string) : contains (sub +:+ post) sub.
Proof. by exists "", post. Qed.

Lemma contains_end (sub : string) : contains sub sub.
Proof. exists "", "". change (sub = sub +:+ ""). by rewrite string_app_nil_r. Qed.

Lemma contains_later (pre s sub : string) :
  contains s sub -> contains (pre +:+ s) sub.
Proof.
  intros (p & q & ->). exists (pre +:+ p), q. by rewrite string_app_assoc.
Qed.

(** The message of [__add__] and [__sub__] names both shapes. *)
Lemma same_shape_message_contains (a b : Matrix.t) (sa sb : nat * nat) :
  Matrix.shape a = Ok sa -> Matrix.shape b = Ok sb ->
  exists msg, Matrix.same_shape_message a b = Ok msg
              /\ contains msg (Matrix.repr_shape sa)
              /\ contains msg (Matrix.repr_shape sb).
Proof.
  intros Hsa Hsb. unfold Matrix.same_shape_message. rewrite Hsa, Hsb. simpl.
  eexists. split; [done|]. split.
  - do 4 apply contains_later. apply contains_here.
  - do 9 apply contains_later. apply contains_end.
Qed.

(** C9: for constructed matrices [a] and [b], when the shapes differ both
    [a + b] and [a - b] raise a [ValueError] whose message contains the
    shape of [a] and the shape of [b]; when the shapes are equal both
    return a matrix. *)
Theorem add_sub_shape_check (a b : Matrix.t) (sa sb : nat * nat) :
  Matrix.constructed a -> Matrix.constructed b ->
  Matrix.shape a = Ok sa -> Matrix.shape b = Ok sb ->
  (sa ≠ sb ->
   exists msg,
     Matrix.add a b = Raise (ValueError msg)
     /\ Matrix.sub a b = Raise (ValueError msg)
     /\ contains msg (Matrix.repr_shape sa)
     /\ contains msg (Matrix.repr_shape sb))
  /\ (sa = sb -> succeeds (Matrix.add a b) /\ succeeds (Matrix.sub a b)).
Proof.
  intros Ha Hb Hsa Hsb. split.
  - intros Hne.
    destruct (same_shape_message_contains a b sa sb Hsa Hsb)
      as (msg & Hmsg & Hin_a & Hin_b).
    exists msg. unfold Matrix.add, Matrix.sub. rewrite Hsa, Hsb. simpl.
    replace (Matrix.shape_eqb sb sa) with false.
    + rewrite Hmsg. simpl. done.
    + symmetry. apply not_true_iff_false. rewrite shape_eqb_eq. congruence.
  - intros ->.
    rewrite (shape_constructed a Ha) in Hsa.
    rewrite (shape_constructed b Hb) in Hsb.
    assert (Matrix.h a = Matrix.h b /\ Matrix.w a = Matrix.w b) as [Hh Hw]
      by (split; congruence).
    unfold succeeds. rewrite add_same_shape, sub_same_shape by done. eauto.
Qed.

Lemma add_sub_shape_check_witness :
  let a := Matrix.Build [[1; 2; 3]; [4; 5; 6]]%Z 2 3 in
  let b := Matrix.Build [[10; 11]; [20; 21]; [30; 31]]%Z 3 2 in
  (exists msg,
     Matrix.add a b = Raise (ValueError msg)
     /\ Matrix.sub a b = Raise (ValueError msg)
     /\ contains msg "(2, 3)"
     /\ contains msg "(3, 2)")
  /\ succeeds (Matrix.add a a) /\ succeeds (Matrix.sub a a).
Proof.
  split.
  - apply (add_sub_shape_check
             (Matrix.Build [[1; 2; 3]; [4; 5; 6]]%Z 2 3)
             (Matrix.Build [[10; 11]; [20; 21]; [30; 31]]%Z 3 2)
             (2, 3) (3, 2)).
    + exists [[1; 2; 3]; [4; 5; 6]]%Z. reflexivity.
    + exists [[10; 11]; [20; 21]; [30; 31]]%Z. reflexivity.
    + reflexivity.
    + reflexivity.
    + discriminate.
  - apply (add_sub_shape_check
             (Matrix.Build [[1; 2; 3]; [4; 5; 6]]%Z 2 3)
             (Matrix.Build [[1; 2; 3]; [4; 5; 6]]%Z 2 3)
             (2, 3) (2, 3)).
    + exists [[1; 2; 3]; [4; 5; 6]]%Z. reflexivity.
    + exists [[1; 2; 3]; [4; 5; 6]]%Z. reflexivity.
    + reflexivity.
    + reflexivity.
    + reflexivity.
Defined.

(** ** The matrix product *)

(** C6: [Matrix([[1,2,3],[4,5,6]]) * Matrix([[10,11],[20,21],[30,31]])]
    returns [Matrix([[140,146],[320,335]])], and the element at [(i, j)] of
    the product is the dot product of row [i] of the left operand and
    column [j] of the right operand. *)
Theorem mul_2x3_by_3x2 :
  let a := Matrix.Build [[1; 2; 3]; [4; 5; 6]]%Z 2 3 in
  let b := Matrix.Build [[10; 11]; [20; 21]; [30; 31]]%Z 3 2 in
  let p := Matrix.Build [[140; 146]; [320; 335]]%Z 2 2 in
  Matrix.init [[1; 2; 3]; [4; 5; 6]]%Z = Ok a
  /\ Matrix.init [[10; 11]; [20; 21]; [30; 31]]%Z = Ok b
  /\ Matrix.init [[140; 146]; [320; 335]]%Z = Ok p
  /\ Matrix.mul a (Matrix.OMatrix b) = Ok p
  /\ forall (i j : nat) (row col : list Z),
       Matrix.getitem a (Z.of_nat i) = Ok row ->
       Matrix.get_col b (Z.of_nat j) = Ok col ->
       (row_p <- Matrix.getitem p (Z.of_nat i) ;;
        list_getitem row_p (Z.of_nat j))
       = Ok (Matrix.dot row col).
Proof.
  do 4 (split; [reflexivity|]).
  intros i j row col Hrow Hcol.
  unfold Matrix.getitem, Matrix.get_col in *. simpl in *.
  rewrite list_getitem_of_nat in *.
  destruct i as [|[|i]]; simpl in Hrow; try discriminate;
    injection Hrow as <-; simpl;
    rewrite !list_getitem_of_nat in *;
    destruct j as [|[|j]]; simpl in Hcol; try discriminate;
    injection Hcol as <-; reflexivity.
Qed.

Lemma mul_2x3_by_3x2_witness :
  let a := Matrix.Build [[1; 2; 3]; [4; 5; 6]]%Z 2 3 in
  let b := Matrix.Build [[10; 11]; [20; 21]; [30; 31]]%Z 3 2 in
  let p := Matrix.Build [[140; 146]; [320; 335]]%Z 2 2 in
  (row_p <- Matrix.getitem p 1 ;; list_getitem row_p 0)
  = Ok (Matrix.dot [4; 5; 6]%Z [10; 20; 30]%Z).
Proof.
  apply (proj2 (proj2 (proj2 (proj2 mul_2x3_by_3x2))) 1 0
           [4; 5; 6]%Z [10; 20; 30]%Z); reflexivity.
Defined.

(** C1 fails on the code: for the 1x2 matrix [[1, 2]] and the 2x3 matrix
    [[1, 2, 3], [4, 5, 6]], whose sizes are compatible, the product raises
    [IndexError] instead of returning a 1x3 matrix. *)
Theorem mul_1x2_by_2x3_raises :
  let a := Matrix.Build [[1; 2]]%Z 1 2 in
  let b := Matrix.Build [[1; 2; 3]; [4; 5; 6]]%Z 2 3 in
  Matrix.init [[1; 2]]%Z = Ok a
  /\ Matrix.init [[1; 2; 3]; [4; 5; 6]]%Z = Ok b
  /\ Matrix.w a = Matrix.h b
  /\ Matrix.zeros a b = [[0]; [0]; [0]]%Z
  /\ Matrix.mul a (Matrix.OMatrix b) = Raise IndexError.
Proof. repeat split. Qed.

(** ** Transposition *)

Lemma zip_star_cons {X : Type} (r r' : list X) (rest : list (list X)) :
  zip_star (r :: r' :: rest) = zip_with cons r (zip_star (r' :: rest)).
Proof. reflexivity. Qed.

Lemma zip_star_singletons {X : Type} (r : list X) :
  r ≠ [] -> zip_star (map (fun x => [x]) r) = [r].
Proof.
  induction r as [|x [|y r] IH]; intros Hne; try done.
  change (zip_with cons [x] (zip_star (map (fun x => [x]) (y :: r)))
          = [x :: y :: r]).
  by rewrite IH.
Qed.

Lemma zip_star_zip_with_cons {X : Type} (r : list X) (T : list (list X)) :
  length r = length T -> T ≠ [] ->
  zip_star (zip_with cons r T) = r :: zip_star T.
Proof.
  revert r. induction T as [|t [|t' T] IH]; intros r Hlen Hne; try done.
  - destruct r as [|x [|? ?]]; done.
  - destruct r as [|x [|x' r]]; try done.
    change (zip_with cons (x :: t)
              (zip_star (zip_with cons (x' :: r) (t' :: T)))
            = (x :: x' :: r) :: zip_star (t :: t' :: T)).
    rewrite IH by (simpl in *; done || lia).
    by rewrite zip_star_cons.
Qed.

(** The transposed rows of an [height] x [width] row list: [width] rows
    of length [height]. *)
Lemma zip_star_shape (rows : list (list Z)) (height width : nat) :
  rectangular rows height width ->
  length (zip_star rows) = width
  /\ Forall (fun col => length col = height) (zip_star rows).
Proof.
  revert height. induction rows as [|r [|r' rest] IH];
    intros height (Hlen & Hpos & Hall).
  - simpl in Hlen. lia.
  - simpl in *. subst height. inversion Hall as [|? ? Hr _]; subst.
    split; [by rewrite length_map|]. apply Forall_map, Forall_true. done.
  - rewrite zip_star_cons. inversion Hall as [|? ? Hr Hrest]; subst.
    destruct (IH (length (r' :: rest))) as [IHlen IHall].
    { split; [done|]. split; [simpl; lia|done]. }
    split.
    + rewrite length_zip_with, IHlen. lia.
    + apply Forall_lookup. intros i col Hcol.
      apply lookup_zip_with_Some in Hcol as (x & t & -> & _ & Ht).
      rewrite Forall_lookup in IHall. simpl. f_equal. eauto.
Qed.

Lemma zip_star_involutive (rows : list (list Z)) (height width : nat) :
  rectangular rows height width -> 0 < width ->
  zip_star (zip_star rows) = rows.
Proof.
  intros Hrect Hwidth. revert height Hrect.
  induction rows as [|r [|r' rest] IH]; intros height (Hlen & Hpos & Hall).
  - done.
  - inversion Hall as [|? ? Hr _]; subst. simpl.
    apply zip_star_singletons. intros ->. simpl in Hwidth. lia.
  - rewrite zip_star_cons. inversion Hall as [|? ? Hr Hrest]; subst.
    assert (rectangular (r' :: rest) (length (r' :: rest)) (length r))
      as Hrect'.
    { split; [done|]. split; [simpl; lia|done]. }
    destruct (zip_star_shape _ _ _ Hrect') as [Hlen' _].
    rewrite zip_star_zip_with_cons.
    + f_equal. by eapply IH.
    + congruence.
    + intros Hnil. rewrite Hnil in Hlen'. simpl in Hlen'. lia.
Qed.

(** C7: for a constructed matrix [m] with at least one column,
    [m.transpose()] returns a matrix of shape [(width, height)], and
    transposing that matrix returns a matrix equal to [m], row by row and
    element by element. *)
Theorem transpose_involutive (m : Matrix.t) :
  Matrix.constructed m -> 0 < Matrix.w m ->
  Matrix.shape m = Ok (Matrix.h m, Matrix.w m)
  /\ exists mt,
       Matrix.transpose m = Ok mt
       /\ Matrix.shape mt = Ok (Matrix.w m, Matrix.h m)
       /\ Matrix.transpose mt = Ok m.
Proof.
  intros Hm Hw. split; [by apply shape_constructed|].
  pose proof Hm as Hrect%constructed_rectangular.
  destruct (zip_star_shape _ _ _ Hrect) as [Hlen Hall].
  assert (rectangular (zip_star (Matrix.coordinates m))
            (Matrix.w m) (Matrix.h m)) as Hrect_t by done.
  exists (Matrix.Build (zip_star (Matrix.coordinates m))
            (Matrix.w m) (Matrix.h m)).
  split; [by apply init_rectangular|]. split.
  - by apply shape_constructed, constructed_build.
  - unfold Matrix.transpose. simpl.
    rewrite (zip_star_involutive _ _ _ Hrect Hw).
    destruct m as [rows hh ww]. by apply init_rectangular.
Qed.

Lemma transpose_involutive_witness :
  let m := Matrix.Build [[1; 2; 3]; [4; 5; 6]]%Z 2 3 in
  Matrix.shape m = Ok (2, 3)
  /\ exists mt,
       Matrix.transpose m = Ok mt
       /\ Matrix.shape mt = Ok (3, 2)
       /\ Matrix.transpose mt = Ok m.
Proof.
  apply (transpose_involutive (Matrix.Build [[1; 2; 3]; [4; 5; 6]]%Z 2 3)).
  - exists [[1; 2; 3]; [4; 5; 6]]%Z. reflexivity.
  - simpl. lia.
Defined.

(** ** Loops *)

Lemma for_each_invariant {X S : Type} (P : S -> Prop) (Q : X -> Prop)
    (xs : list X) (body : X -> S -> result S) (s : S) :
  Forall Q xs ->
  (forall x s, Q x -> P s -> exists s', body x s = Ok s' /\ P s') ->
  P s ->
  exists s', for_each xs body s = Ok s' /\ P s'.
Proof.
  intros Hxs Hbody. revert s.
  induction Hxs as [|x xs Hx Hxs IH]; intros s Hs; [by exists s|].
  destruct (Hbody x s Hx Hs) as (s1 & Hs1 & HP1).
  simpl. rewrite Hs1. simpl. by apply IH.
Qed.

Lemma for_each_raises {X S : Type} (P : S -> Prop) (Q : X -> Prop)
    (xs ys : list X) (y : X) (body : X -> S -> result S) (s : S) (e : exn) :
  Forall Q xs ->
  (forall x s, Q x -> P s -> exists s', body x s = Ok s' /\ P s') ->
  (forall s, P s -> body y s = Raise e) ->
  P s ->
  for_each (xs ++ y :: ys) body s = Raise e.
Proof.
  intros Hxs Hbody Hy. revert s.
  induction Hxs as [|x xs Hx Hxs IH]; intros s Hs.
  - simpl. by rewrite Hy.
  - destruct (Hbody x s Hx Hs) as (s1 & Hs1 & HP1).
    simpl. rewrite Hs1. simpl. by apply IH.
Qed.

(** ** The buffer of the product *)

Lemma zeros_sized (a b : Matrix.t) :
  sized (Matrix.zeros a b) (Matrix.w b) (Matrix.h a).
Proof.
  unfold Matrix.zeros. split.
  - by rewrite length_map, length_seq.
  - apply Forall_map, Forall_true. intros _. simpl.
    by rewrite length_map, length_seq.
Qed.

Lemma store_ok (buffer : list (list Z)) (n m i j : nat) (v : Z) :
  sized buffer n m -> i < n -> j < m ->
  exists buffer', Matrix.store buffer i j v = Ok buffer'
                  /\ sized buffer' n m.
Proof.
  intros [Hlen Hall] Hi Hj. unfold Matrix.store.
  rewrite list_getitem_of_nat.
  destruct (lookup_lt_is_Some_2 buffer i) as [row Hrow]; [lia|].
  rewrite Hrow. simpl.
  assert (length row = m) as Hrow_len.
  { rewrite Forall_lookup in Hall. eauto. }
  rewrite list_setitem_of_nat. rewrite decide_True by lia. simpl.
  eexists. split; [done|]. split.
  - by rewrite length_insert.
  - apply Forall_insert; [done|]. by rewrite length_insert.
Qed.

Lemma store_raises (buffer : list (list Z)) (n m i j : nat) (v : Z) :
  sized buffer n m -> n <= i \/ m <= j ->
  Matrix.store buffer i j v = Raise IndexError.
Proof.
  intros [Hlen Hall] Hout. unfold Matrix.store.
  rewrite list_getitem_of_nat.
  destruct (buffer !! i) as [row|] eqn:Hrow; [|done]. simpl.
  assert (length row = m) as Hrow_len.
  { rewrite Forall_lookup in Hall. eauto. }
  apply lookup_lt_Some in Hrow.
  rewrite list_setitem_of_nat. rewrite decide_False by lia. done.
Qed.

Lemma get_col_ok (b : Matrix.t) (j : nat) :
  Matrix.constructed b -> j < Matrix.w b ->
  exists col, Matrix.get_col b (Z.of_nat j) = Ok col.
Proof.
  intros (_ & _ & Hall)%constructed_rectangular Hj. unfold Matrix.get_col.
  induction Hall as [|row rows Hrow Hrows IH]; [by exists []|].
  destruct IH as [col Hcol]. simpl. rewrite list_getitem_of_nat.
  destruct (lookup_lt_is_Some_2 row j) as [x Hx]; [lia|].
  rewrite Hx, Hcol. simpl. by eexists.
Qed.

Section ProductLoops.

Variables (b : Matrix.t) (row_a : list Z) (i : nat).
Hypothesis Hb : Matrix.constructed b.

(** The body of the inner loop, at row [i] of the left operand. *)
Let inner (j : nat) (buffer : list (list Z)) : result (list (list Z)) :=
  col <- Matrix.get_col b (Z.of_nat j) ;;
  Matrix.store buffer i j (Matrix.dot row_a col).

Lemma inner_step_ok (buffer : list (list Z)) (n m j : nat) :
  sized buffer n m -> i < n -> j < m -> j < Matrix.w b ->
  exists buffer', inner j buffer = Ok buffer' /\ sized buffer' n m.
Proof.
  intros Hsized Hi Hjm Hj. unfold inner.
  destruct (get_col_ok b j Hb Hj) as [col ->]. simpl. by apply store_ok.
Qed.

Lemma inner_step_raises (buffer : list (list Z)) (n m j : nat) :
  sized buffer n m -> n <= i \/ m <= j -> j < Matrix.w b ->
  inner j buffer = Raise IndexError.
Proof.
  intros Hsized Hout Hj. unfold inner.
  destruct (get_col_ok b j Hb Hj) as [col ->]. simpl.
  by eapply store_raises.
Qed.

(** A row inside a buffer wide enough: every column is written. *)
Lemma inner_loop_ok (buffer : list (list Z)) (n m : nat) :
  sized buffer n m -> i < n -> Matrix.w b <= m ->
  exists buffer',
    for_each (seq 0 (Matrix.w b)) inner buffer = Ok buffer'
    /\ sized buffer' n m.
Proof.
  intros Hsized Hi Hw.
  apply (for_each_invariant (fun s => sized s n m)
           (fun j => j < Matrix.w b)); [|intros j s Hj Hs|done].
  - apply Forall_seq. intros j Hj. lia.
  - apply inner_step_ok; [done|done|lia|done].
Qed.

(** A row inside the buffer, which is too narrow: the write at column [m]
    raises. *)
Lemma inner_loop_raises_column (buffer : list (list Z)) (n m : nat) :
  sized buffer n m -> i < n -> m < Matrix.w b ->
  for_each (seq 0 (Matrix.w b)) inner buffer = Raise IndexError.
Proof.
  intros Hsized Hi Hw.
  replace (Matrix.w b) with (m + S (Matrix.w b - S m)) at 1 by lia.
  rewrite seq_app. simpl.
  apply (for_each_raises (fun s => sized s n m) (fun j => j < m));
    [|intros j s Hj Hs|intros s Hs|done].
  - apply Forall_seq. intros j Hj. lia.
  - apply inner_step_ok; [done|done|done|lia].
  - by apply (inner_step_raises s n m); [|right|].
Qed.

(** A row below the buffer: the first write raises. *)
Lemma inner_loop_raises_row (buffer : list (list Z)) (n m : nat) :
  sized buffer n m -> n <= i -> 0 < Matrix.w b ->
  for_each (seq 0 (Matrix.w b)) inner buffer = Raise IndexError.
Proof.
  intros Hsized Hi Hw.
  destruct (Matrix.w b) as [|k] eqn:Hk; [lia|]. simpl.
  rewrite (inner_step_raises buffer n m 0); [done|done|by left|lia].
Qed.

End ProductLoops.

Lemma enumerate_lookup {X : Type} (xs : list X) (i : nat) (p : nat * X) :
  enumerate xs !! i = Some p -> fst p = i.
Proof.
  unfold enumerate. intros Hp.
  apply lookup_zip_with_Some in Hp as (k & x & -> & Hk & _).
  apply lookup_seq in Hk as [-> _]. done.
Qed.

Lemma enumerate_length {X : Type} (xs : list X) :
  length (enumerate xs) = length xs.
Proof. unfold enumerate. rewrite length_zip_with, length_seq. lia. Qed.

(** C2: for constructed matrices [a] of shape [(h, k)] and [b] of shape
    [(k, n)] with [h] different from [n], [a * b] raises [IndexError]: the
    buffer has [n] rows of [h] zeros, and the loops write at row [i < h]
    and column [j < n]. *)
Theorem mul_not_square_raises (a b : Matrix.t) :
  Matrix.constructed a -> Matrix.constructed b ->
  Matrix.w a = Matrix.h b -> Matrix.h a ≠ Matrix.w b ->
  sized (Matrix.zeros a b) (Matrix.w b) (Matrix.h a)
  /\ Matrix.mul a (Matrix.OMatrix b) = Raise IndexError.
Proof.
  intros Ha Hb Hk Hne. split; [apply zeros_sized|].
  unfold Matrix.mul. rewrite Hk, Nat.eqb_refl.
  pose proof (zeros_sized a b) as Hzeros.
  apply constructed_rectangular in Ha as (Hlen_a & Hpos_a & _).
  assert (length (enumerate (Matrix.coordinates a)) = Matrix.h a) as Hlen_e
    by (by rewrite enumerate_length).
  unfold Matrix.mul_loops.
  destruct (decide (Matrix.w b = 0)) as [Hw0|Hw0].
  - (* no column: the loops write nothing and the empty buffer is
       rejected by the constructor *)
    destruct (for_each_invariant (fun s => s = Matrix.zeros a b)
                (fun _ => True) (enumerate (Matrix.coordinates a))
                (fun '(i, row_a) res =>
                   for_each (seq 0 (Matrix.w b))
                     (fun j res' =>
                        col <- Matrix.get_col b (Z.of_nat j) ;;
                        Matrix.store res' i j (Matrix.dot row_a col))
                     res)
                (Matrix.zeros a b)) as (res & -> & ->).
    + by apply Forall_true.
    + intros [i row_a] s _ ->. rewrite Hw0. simpl. eauto.
    + done.
    + simpl. unfold Matrix.zeros. by rewrite Hw0.
  - destruct (decide (Matrix.h a < Matrix.w b)) as [Hlt|Hge].
    + (* fewer rows than columns: row 0 overflows its buffer row *)
      destruct (enumerate (Matrix.coordinates a)) as [|[i row_a] rest]
        eqn:He; [simpl in Hlen_e; lia|].
      assert (i = 0) as ->.
      { apply (enumerate_lookup (Matrix.coordinates a) 0 (i, row_a)).
        by rewrite He. }
      simpl.
      rewrite (inner_loop_raises_column b row_a 0 Hb _
                 (Matrix.w b) (Matrix.h a)); [done|done|lia|done].
    + (* more rows than columns: row [n] is below the buffer *)
      destruct (lookup_lt_is_Some_2 (enumerate (Matrix.coordinates a))
                  (Matrix.w b)) as [[i row_a] Hrow]; [lia|].
      assert (i = Matrix.w b) as ->
        by apply (enumerate_lookup _ _ _ Hrow).
      rewrite <- (take_drop_middle _ _ _ Hrow).
      rewrite (for_each_raises
                 (fun s => sized s (Matrix.w b) (Matrix.h a))
                 (fun p => fst p < Matrix.w b) _ _ _ _ _ IndexError);
        [done| |intros [i row] s Hi Hs|intros s Hs|done].
      * apply Forall_lookup. intros i p Hp.
        apply lookup_take_Some in Hp as [Hp Hi].
        by rewrite (enumerate_lookup _ _ _ Hp).
      * apply inner_loop_ok; [done|done|done|lia].
      * apply (inner_loop_raises_row b row_a (Matrix.w b) Hb s
                 (Matrix.w b) (Matrix.h a)); [done|lia|lia].
Qed.

Lemma mul_not_square_raises_witness :
  let a := Matrix.Build [[1; 2]; [3; 4]; [5; 6]]%Z 3 2 in
  let b := Matrix.Build [[1; 2]; [3; 4]]%Z 2 2 in
  sized (Matrix.zeros a b) 2 3
  /\ Matrix.mul a (Matrix.OMatrix b) = Raise IndexError.
Proof.
  apply (mul_not_square_raises
           (Matrix.Build [[1; 2]; [3; 4]; [5; 6]]%Z 3 2)
           (Matrix.Build [[1; 2]; [3; 4]]%Z 2 2)).
  - exists [[1; 2]; [3; 4]; [5; 6]]%Z. reflexivity.
  - exists [[1; 2]; [3; 4]]%Z. reflexivity.
  - reflexivity.
  - simpl. lia.
Defined.

(** Where the product does return: the operands are compatible and the
    result is square, [h = n]. *)
Lemma mul_square_shape (a b : Matrix.t) :
  Matrix.constructed a -> Matrix.constructed b ->
  Matrix.w a = Matrix.h b -> Matrix.h a = Matrix.w b ->
  exists p, Matrix.mul a (Matrix.OMatrix b) = Ok p
            /\ Matrix.shape p = Ok (Matrix.h a, Matrix.w b).
Proof.
  intros Ha Hb Hk Hsq. unfold Matrix.mul. rewrite Hk, Nat.eqb_refl.
  pose proof (zeros_sized a b) as Hzeros.
  pose proof Ha as (Hlen_a & Hpos_a & _)%constructed_rectangular.
  destruct (for_each_invariant
              (fun s => sized s (Matrix.w b) (Matrix.h a))
              (fun p => fst p < Matrix.w b)
              (enumerate (Matrix.coordinates a))
              (fun '(i, row_a) res =>
                 for_each (seq 0 (Matrix.w b))
                   (fun j res' =>
                      col <- Matrix.get_col b (Z.of_nat j) ;;
                      Matrix.store res' i j (Matrix.dot row_a col))
                   res)
              (Matrix.zeros a b)) as (res & Hres & [Hlen Hall]).
  - apply Forall_lookup. intros i p Hp.
    rewrite (enumerate_lookup _ _ _ Hp).
    apply lookup_lt_Some in Hp. rewrite enumerate_length in Hp. lia.
  - intros [i row] s Hi Hs. apply inner_loop_ok; [done|done|done|lia].
  - done.
  - unfold Matrix.mul_loops. rewrite Hres. simpl.
    assert (rectangular res (Matrix.w b) (Matrix.h a)) as Hrect.
    { split; [done|]. split; [lia|done]. }
    rewrite (init_rectangular _ _ _ Hrect). eexists. split; [done|].
    rewrite shape_constructed by (by apply constructed_build).
    simpl. by rewrite Hsq.
Qed.

(** * Further properties of the code *)

(** ** Indexing from either end *)

Lemma py_index_inside (len : nat) (i : Z) (n : nat) :
  py_index len i = Some n
  <-> ((0 <= i < Z.of_nat len)%Z /\ n = Z.to_nat i)
      \/ ((- Z.of_nat len <= i < 0)%Z /\ n = Z.to_nat (i + Z.of_nat len)).
Proof.
  unfold py_index.
  destruct (Z.leb_spec 0 i), (Z.ltb_spec i (Z.of_nat len)),
    (Z.leb_spec (- Z.of_nat len) i), (Z.ltb_spec i 0); simpl;
    split; (intros [= <-] || intros [[? ->]|[? ->]] || idtac);
    try (left; split; [lia|done]); try (right; split; [lia|done]);
    try done; try lia; intros [[? _]|[? _]]; lia.
Qed.

Lemma py_index_outside (len : nat) (i : Z) :
  py_index len i = None <-> (i < - Z.of_nat len \/ Z.of_nat len <= i)%Z.
Proof.
  unfold py_index.
  destruct (Z.leb_spec 0 i), (Z.ltb_spec i (Z.of_nat len)),
    (Z.leb_spec (- Z.of_nat len) i), (Z.ltb_spec i 0); simpl;
    split; try done; try lia.
Qed.

Lemma check_matrix_rectangular (m : Matrix.t) :
  rectangular (Matrix.coordinates m) (Matrix.h m) (Matrix.w m) ->
  Matrix.check_matrix m = Ok tt.
Proof. intros (_ & _ & Hall). by apply check_matrix_ok. Qed.

(** ** The constructor *)

(** [Matrix(rows)] raises [IndexError] for no rows, raises the
    [ValueError] of the row check when some row is not as long as the
    first, and otherwise returns the matrix of these rows with [h] the
    number of rows and [w] the length of the first. *)
Theorem init_outcomes (r0 : list Z) (rest : list (list Z)) :
  Matrix.init [] = Raise IndexError
  /\ (Forall (fun row => length row = length r0) rest ->
      Matrix.init (r0 :: rest)
      = Ok (Matrix.Build (r0 :: rest) (S (length rest)) (length r0)))
  /\ (Exists (fun row => length row ≠ length r0) rest ->
      Matrix.init (r0 :: rest) = Raise (ValueError Matrix.rows_message)).
Proof.
  split; [done|]. split.
  - intros Hall. apply init_rectangular.
    split; [done|]. split; [lia|]. by constructor.
  - intros (row & Hin & Hne)%Exists_exists. unfold Matrix.init.
    rewrite (check_matrix_bad_row _ row); [done| |done].
    simpl. by right.
Qed.

Lemma init_outcomes_witness :
  Matrix.init [[1; 2; 3]; [4; 5; 6]]%Z
  = Ok (Matrix.Build [[1; 2; 3]; [4; 5; 6]]%Z 2 3)
  /\ Matrix.init [[1; 2; 3]; [4; 5]]%Z
     = Raise (ValueError Matrix.rows_message).
Proof.
  split.
  - apply (proj1 (proj2 (init_outcomes [1; 2; 3]%Z [[4; 5; 6]%Z]))).
    repeat constructor.
  - apply (proj2 (proj2 (init_outcomes [1; 2; 3]%Z [[4; 5]%Z]))).
    apply Exists_cons_hd. simpl. lia.
Defined.

(** ** Row access *)

(** [m[idx]] follows list indexing: row [k] is reached by the index [k]
    and by [k - len(rows)], and an index outside
    [-len(rows) <= idx < len(rows)] raises [IndexError]. *)
Theorem getitem_either_end (m : Matrix.t) :
  (forall (k : nat) (row : list Z),
     Matrix.coordinates m !! k = Some row ->
     Matrix.getitem m (Z.of_nat k) = Ok row
     /\ Matrix.getitem m
          (Z.of_nat k - Z.of_nat (length (Matrix.coordinates m))) = Ok row)
  /\ (forall idx : Z,
        (idx < - Z.of_nat (length (Matrix.coordinates m))
         \/ Z.of_nat (length (Matrix.coordinates m)) <= idx)%Z ->
        Matrix.getitem m idx = Raise IndexError).
Proof.
  split.
  - intros k row Hrow. pose proof (lookup_lt_Some _ _ _ Hrow) as Hk.
    unfold Matrix.getitem. split.
    + by rewrite list_getitem_of_nat, Hrow.
    + unfold list_getitem.
      replace (py_index _ _) with (Some k); [by rewrite Hrow|].
      symmetry. apply py_index_inside. right. split; lia.
  - intros idx Hout. unfold Matrix.getitem, list_getitem.
    by rewrite (proj2 (py_index_outside _ idx) Hout).
Qed.

Lemma getitem_either_end_witness :
  let m := Matrix.Build [[1; 2; 3]; [4; 5; 6]]%Z 2 3 in
  (Matrix.getitem m 1 = Ok [4; 5; 6]%Z
   /\ Matrix.getitem m (-1) = Ok [4; 5; 6]%Z)
  /\ Matrix.getitem m 2 = Raise IndexError.
Proof.
  split.
  - apply (proj1 (getitem_either_end
                    (Matrix.Build [[1; 2; 3]; [4; 5; 6]]%Z 2 3))
             1 [4; 5; 6]%Z).
    reflexivity.
  - apply (proj2 (getitem_either_end
                    (Matrix.Build [[1; 2; 3]; [4; 5; 6]]%Z 2 3)) 2%Z).
    simpl. lia.
Defined.

(** ** Row replacement, continued *)

Lemma rectangular_insert (rows : list (list Z)) (height width n : nat)
    (r : list Z) :
  rectangular rows height width -> length r = width ->
  rectangular (<[n := r]> rows) height width.
Proof.
  intros (Hlen & Hpos & Hall) Hr.
  split; [by rewrite length_insert|]. split; [done|].
  by apply Forall_insert.
Qed.

Lemma py_index_in_range (len : nat) (i : Z) :
  (- Z.of_nat len <= i < Z.of_nat len)%Z ->
  exists n, py_index len i = Some n /\ n < len.
Proof.
  intros Hi. destruct (py_index len i) as [n|] eqn:Hn.
  - exists n. split; [done|]. by eapply py_index_lt.
  - apply py_index_outside in Hn. lia.
Qed.

(** On a constructed matrix, [m[idx] = r] with [idx] out of range raises
    [IndexError] and leaves the matrix as it was; with [idx] in range and
    [r] as long as the rows it succeeds, the matrix is still one the
    constructor accepts, [m[idx]] is [r], and exactly one row position was
    replaced. *)
Theorem setitem_outcomes (m : Matrix.t) (idx : Z) (r : list Z) :
  Matrix.constructed m ->
  ((idx < - Z.of_nat (Matrix.h m) \/ Z.of_nat (Matrix.h m) <= idx)%Z ->
   Matrix.setitem m idx r = (m, Raise IndexError))
  /\ ((- Z.of_nat (Matrix.h m) <= idx < Z.of_nat (Matrix.h m))%Z ->
      length r = Matrix.w m ->
      snd (Matrix.setitem m idx r) = Ok tt
      /\ Matrix.constructed (fst (Matrix.setitem m idx r))
      /\ Matrix.getitem (fst (Matrix.setitem m idx r)) idx = Ok r
      /\ exists n, n < Matrix.h m
                   /\ Matrix.coordinates (fst (Matrix.setitem m idx r))
                      = <[n := r]> (Matrix.coordinates m)).
Proof.
  intros Hm. pose proof Hm as Hrect%constructed_rectangular.
  destruct Hrect as (Hlen & Hpos & Hall).
  unfold Matrix.setitem, list_setitem. rewrite Hlen. split.
  - intros Hout. by rewrite (proj2 (py_index_outside _ idx) Hout).
  - intros Hin Hr.
    destruct (py_index_in_range _ _ Hin) as (n & Hn & Hlt).
    rewrite Hn. simpl.
    assert (rectangular (<[n := r]> (Matrix.coordinates m))
              (Matrix.h m) (Matrix.w m)) as Hrect'
      by (by apply rectangular_insert).
    split; [by apply check_matrix_rectangular|].
    split; [by apply constructed_build|]. split.
    + unfold Matrix.getitem, list_getitem. simpl.
      rewrite length_insert, Hlen, Hn.
      by rewrite list_lookup_insert_eq by lia.
    + by exists n.
Qed.

Lemma setitem_outcomes_witness :
  let m := Matrix.Build [[1; 2; 3]; [4; 5; 6]]%Z 2 3 in
  Matrix.setitem m 2 [7; 8; 9]%Z = (m, Raise IndexError)
  /\ snd (Matrix.setitem m (-1) [7; 8; 9]%Z) = Ok tt
  /\ Matrix.constructed (fst (Matrix.setitem m (-1) [7; 8; 9]%Z))
  /\ Matrix.getitem (fst (Matrix.setitem m (-1) [7; 8; 9]%Z)) (-1)
     = Ok [7; 8; 9]%Z
  /\ exists n, n < 2
               /\ Matrix.coordinates
                    (fst (Matrix.setitem m (-1) [7; 8; 9]%Z))
                  = <[n := [7; 8; 9]%Z]> [[1; 2; 3]; [4; 5; 6]]%Z.
Proof.
  assert (Matrix.constructed (Matrix.Build [[1; 2; 3]; [4; 5; 6]]%Z 2 3))
    as Hm by (exists [[1; 2; 3]; [4; 5; 6]]%Z; reflexivity).
  split.
  - apply (proj1 (setitem_outcomes _ 2%Z [7; 8; 9]%Z Hm)). simpl. lia.
  - apply (proj2 (setitem_outcomes _ (-1)%Z [7; 8; 9]%Z Hm)).
    + simpl. lia.
    + reflexivity.
Defined.

(** After a rejected replacement of a row of a constructed matrix, [shape]
    and the stored sizes can disagree: [h] and [w] keep their values, and
    when the replaced row is the first, [shape] reports the length of the
    rejected row as the width. *)
Theorem rejected_first_row_changes_shape (m : Matrix.t) (r : list Z) :
  Matrix.constructed m -> length r ≠ Matrix.w m ->
  let m' := fst (Matrix.setitem m 0 r) in
  Matrix.shape m = Ok (Matrix.h m, Matrix.w m)
  /\ snd (Matrix.setitem m 0 r) = Raise (ValueError Matrix.rows_message)
  /\ Matrix.h m' = Matrix.h m /\ Matrix.w m' = Matrix.w m
  /\ Matrix.shape m' = Ok (Matrix.h m, length r).
Proof.
  intros Hm Hr. pose proof Hm as (Hlen & Hpos & Hall)%constructed_rectangular.
  split; [by apply shape_constructed|].
  unfold Matrix.setitem, list_setitem.
  destruct (Matrix.coordinates m) as [|r0 rest] eqn:Hrows;
    [simpl in Hlen; lia|].
  change (py_index (length (r0 :: rest)) 0) with (Some 0). simpl.
  split.
  - apply check_matrix_bad_row with (row := r); [|done]. simpl. by left.
  - repeat split. unfold Matrix.shape. simpl. by rewrite <- Hlen.
Qed.

Lemma rejected_first_row_changes_shape_witness :
  let m := Matrix.Build [[1; 2; 3]; [4; 5; 6]]%Z 2 3 in
  let m' := fst (Matrix.setitem m 0 [7; 8]%Z) in
  Matrix.shape m = Ok (2, 3)
  /\ snd (Matrix.setitem m 0 [7; 8]%Z)
     = Raise (ValueError Matrix.rows_message)
  /\ Matrix.h m' = 2 /\ Matrix.w m' = 3
  /\ Matrix.shape m' = Ok (2, 2).
Proof.
  apply (rejected_first_row_changes_shape
           (Matrix.Build [[1; 2; 3]; [4; 5; 6]]%Z 2 3) [7; 8]%Z).
  - exists [[1; 2; 3]; [4; 5; 6]]%Z. reflexivity.
  - simpl. lia.
Defined.

(** A rejected replacement is repaired by a second one at the same index:
    after [m[idx] = bad] failed the row check, [m[idx] = good] with a row
    of the right length succeeds and leaves the matrix that [m[idx] = good]
    alone would have produced. *)
Theorem setitem_repairs_rejected_row
    (m : Matrix.t) (idx : Z) (bad good : list Z) :
  Matrix.constructed m ->
  (- Z.of_nat (Matrix.h m) <= idx < Z.of_nat (Matrix.h m))%Z ->
  length bad ≠ Matrix.w m -> length good = Matrix.w m ->
  snd (Matrix.setitem m idx bad) = Raise (ValueError Matrix.rows_message)
  /\ Matrix.setitem (fst (Matrix.setitem m idx bad)) idx good
     = Matrix.setitem m idx good
  /\ snd (Matrix.setitem m idx good) = Ok tt.
Proof.
  intros Hm Hin Hbad Hgood.
  pose proof Hm as (Hlen & Hpos & Hall)%constructed_rectangular.
  rewrite <- Hlen in Hin.
  destruct (py_index_in_range _ _ Hin) as (n & Hn & Hlt).
  unfold Matrix.setitem, list_setitem. rewrite Hn. simpl.
  rewrite length_insert, Hn. simpl. rewrite list_insert_insert_eq.
  split; [|split; [done|]].
  - apply check_matrix_bad_row with (row := bad); [|done]. simpl.
    apply list_elem_of_lookup. exists n. by apply list_lookup_insert_eq.
  - apply check_matrix_rectangular. simpl.
    by apply rectangular_insert.
Qed.

Lemma setitem_repairs_rejected_row_witness :
  let m := Matrix.Build [[1; 2; 3]; [4; 5; 6]]%Z 2 3 in
  snd (Matrix.setitem m 1 [460; 5; 6; 7]%Z)
  = Raise (ValueError Matrix.rows_message)
  /\ Matrix.setitem (fst (Matrix.setitem m 1 [460; 5; 6; 7]%Z)) 1
       [460; 5; 6]%Z
     = Matrix.setitem m 1 [460; 5; 6]%Z
  /\ snd (Matrix.setitem m 1 [460; 5; 6]%Z) = Ok tt.
Proof.
  apply (setitem_repairs_rejected_row
           (Matrix.Build [[1; 2; 3]; [4; 5; 6]]%Z 2 3) 1
           [460; 5; 6; 7]%Z [460; 5; 6]%Z).
  - exists [[1; 2; 3]; [4; 5; 6]]%Z. reflexivity.
  - simpl. lia.
  - simpl. lia.
  - reflexivity.
Defined.

(** ** Negation and scalar multiples *)

Lemma rows_opp_opp (rows : list (list Z)) :
  map (map Z.opp) (map (map Z.opp) rows) = rows.
Proof.
  rewrite map_map. rewrite <- (map_id rows) at 2.
  apply map_ext. intros row. rewrite map_map. rewrite <- (map_id row) at 2.
  apply map_ext. intros x. lia.
Qed.

(** Negating a constructed matrix returns a matrix of the same shape, and
    negating that one returns the original. *)
Theorem neg_involutive (m : Matrix.t) :
  Matrix.constructed m ->
  exists n, Matrix.neg m = Ok n
            /\ Matrix.shape n = Matrix.shape m
            /\ Matrix.neg n = Ok m.
Proof.
  intros Hm. pose proof Hm as Hrect%constructed_rectangular.
  eexists. split; [by apply neg_constructed|].
  assert (rectangular (map (map Z.opp) (Matrix.coordinates m))
            (Matrix.h m) (Matrix.w m)) as Hrect'.
  { apply rectangular_map; [done|]. intros r Hr. by rewrite length_map. }
  split.
  - rewrite (shape_constructed m Hm).
    by apply (shape_constructed (Matrix.Build _ _ _)), constructed_build.
  - rewrite neg_constructed by (by apply constructed_build). simpl.
    rewrite rows_opp_opp. by destruct m.
Qed.

Lemma neg_involutive_witness :
  let m := Matrix.Build [[1; 2; 3]; [4; 5; 6]]%Z 2 3 in
  exists n, Matrix.neg m = Ok n
            /\ Matrix.shape n = Matrix.shape m
            /\ Matrix.neg n = Ok m.
Proof.
  apply (neg_involutive (Matrix.Build [[1; 2; 3]; [4; 5; 6]]%Z 2 3)).
  exists [[1; 2; 3]; [4; 5; 6]]%Z. reflexivity.
Defined.

(** [m * -1] and [-m] are the same call outcome for every matrix object:
    both build the matrix of the negated elements. *)
Theorem mul_minus_one_is_neg (m : Matrix.t) :
  Matrix.mul m (Matrix.ONumber (-1)) = Matrix.neg m.
Proof.
  unfold Matrix.mul, Matrix.neg. f_equal.
  apply map_ext. intros row. apply map_ext. intros x. lia.
Qed.

(** Scalar multiples of a constructed matrix: [m * k] returns a matrix of
    the shape of [m]; multiplying it by [l] is multiplying [m] by
    [k * l]; and [m * 1] returns [m]. *)
Theorem mul_number_composes (m : Matrix.t) (k l : Z) :
  Matrix.constructed m ->
  (exists p, Matrix.mul m (Matrix.ONumber k) = Ok p
             /\ Matrix.shape p = Matrix.shape m
             /\ Matrix.mul p (Matrix.ONumber l)
                = Matrix.mul m (Matrix.ONumber (k * l)))
  /\ Matrix.mul m (Matrix.ONumber 1) = Ok m.
Proof.
  intros Hm. pose proof Hm as Hrect%constructed_rectangular.
  assert (forall c : Z,
            rectangular
              (map (fun a => map (fun x => (x * c)%Z) a)
                 (Matrix.coordinates m))
              (Matrix.h m) (Matrix.w m)) as Hscaled.
  { intros c. apply rectangular_map; [done|].
    intros r Hr. by rewrite length_map. }
  split.
  - eexists. unfold Matrix.mul at 1.
    split; [by apply init_rectangular|]. split.
    + rewrite (shape_constructed m Hm).
      by apply (shape_constructed (Matrix.Build _ _ _)), constructed_build.
    + unfold Matrix.mul. simpl. f_equal. rewrite map_map.
      apply map_ext. intros row. rewrite map_map.
      apply map_ext. intros x. lia.
  - unfold Matrix.mul.
    replace (map _ (Matrix.coordinates m)) with (Matrix.coordinates m).
    + destruct m. by apply init_rectangular.
    + rewrite <- (map_id (Matrix.coordinates m)) at 1.
      apply map_ext. intros row. rewrite <- (map_id row) at 1.
      apply map_ext. intros x. lia.
Qed.

Lemma mul_number_composes_witness :
  let m := Matrix.Build [[1; 2; 3]; [4; 5; 6]]%Z 2 3 in
  (exists p, Matrix.mul m (Matrix.ONumber 2) = Ok p
             /\ Matrix.shape p = Matrix.shape m
             /\ Matrix.mul p (Matrix.ONumber 5)
                = Matrix.mul m (Matrix.ONumber 10))
  /\ Matrix.mul m (Matrix.ONumber 1) = Ok m.
Proof.
  apply (mul_number_composes
           (Matrix.Build [[1; 2; 3]; [4; 5; 6]]%Z 2 3) 2 5).
  exists [[1; 2; 3]; [4; 5; 6]]%Z. reflexivity.
Defined.

(** ** Sums and differences, element by element *)

Lemma rows_add_comm (ca cb : list (list Z)) :
  zip_with (zip_with Z.add) cb ca = zip_with (zip_with Z.add) ca cb.
Proof.
  revert cb. induction ca as [|ra ca IH]; intros [|rb cb]; try done.
  simpl. f_equal; [|apply IH].
  clear. revert rb. induction ra as [|x ra IH]; intros [|y rb]; try done.
  simpl. f_equal; [lia|apply IH].
Qed.

(** For constructed matrices of one shape, [a + b] and [b + a] return the
    same matrix. *)
Theorem add_commutes (a b : Matrix.t) :
  Matrix.constructed a -> Matrix.constructed b ->
  Matrix.shape a = Matrix.shape b ->
  succeeds (Matrix.add a b) /\ Matrix.add a b = Matrix.add b a.
Proof.
  intros Ha Hb Hshape.
  rewrite (shape_constructed a Ha), (shape_constructed b Hb) in Hshape.
  injection Hshape as Hh Hw.
  rewrite (add_same_shape a b), (add_same_shape b a) by done.
  split; [by eexists|]. by rewrite rows_add_comm, Hh, Hw.
Qed.

Lemma add_commutes_witness :
  let a := Matrix.Build [[1; 2; 3]; [4; 5; 6]]%Z 2 3 in
  let b := Matrix.Build [[10; 20; 30]; [40; 50; 60]]%Z 2 3 in
  succeeds (Matrix.add a b) /\ Matrix.add a b = Matrix.add b a.
Proof.
  apply (add_commutes
           (Matrix.Build [[1; 2; 3]; [4; 5; 6]]%Z 2 3)
           (Matrix.Build [[10; 20; 30]; [40; 50; 60]]%Z 2 3)).
  - exists [[1; 2; 3]; [4; 5; 6]]%Z. reflexivity.
  - exists [[10; 20; 30]; [40; 50; 60]]%Z. reflexivity.
  - reflexivity.
Defined.

(** For constructed matrices of one shape, the element at [(i, j)] of
    [a + b] is [a[i][j] + b[i][j]] and that of [a - b] is
    [a[i][j] - b[i][j]]. *)
Theorem add_sub_elements (a b : Matrix.t) :
  Matrix.constructed a -> Matrix.constructed b ->
  Matrix.shape a = Matrix.shape b ->
  exists s d,
    Matrix.add a b = Ok s /\ Matrix.sub a b = Ok d
    /\ forall (i j : nat) (ra rb : list Z) (x y : Z),
         Matrix.coordinates a !! i = Some ra -> ra !! j = Some x ->
         Matrix.coordinates b !! i = Some rb -> rb !! j = Some y ->
         (exists rs, Matrix.coordinates s !! i = Some rs
                     /\ rs !! j = Some (x + y)%Z)
         /\ (exists rd, Matrix.coordinates d !! i = Some rd
                        /\ rd !! j = Some (x - y)%Z).
Proof.
  intros Ha Hb Hshape.
  rewrite (shape_constructed a Ha), (shape_constructed b Hb) in Hshape.
  injection Hshape as Hh Hw.
  do 2 eexists. split; [by apply add_same_shape|].
  split; [by apply sub_same_shape|].
  intros i j ra rb x y Hra Hx Hrb Hy. simpl. split.
  - exists (zip_with Z.add rb ra). split.
    + rewrite lookup_zip_with, Hrb. simpl. by rewrite Hra.
    + rewrite lookup_zip_with, Hy. simpl. rewrite Hx. simpl.
      f_equal. lia.
  - exists (zip_with Z.add (map Z.opp rb) ra). split.
    + rewrite lookup_zip_with. rewrite list_lookup_fmap, Hrb. simpl.
      by rewrite Hra.
    + rewrite lookup_zip_with. rewrite list_lookup_fmap, Hy. simpl.
      rewrite Hx. simpl. f_equal. lia.
Qed.

Lemma add_sub_elements_witness :
  let a := Matrix.Build [[1; 2; 3]; [4; 5; 6]]%Z 2 3 in
  let b := Matrix.Build [[10; 20; 30]; [40; 50; 60]]%Z 2 3 in
  exists s d,
    Matrix.add a b = Ok s /\ Matrix.sub a b = Ok d
    /\ forall (i j : nat) (ra rb : list Z) (x y : Z),
         Matrix.coordinates a !! i = Some ra -> ra !! j = Some x ->
         Matrix.coordinates b !! i = Some rb -> rb !! j = Some y ->
         (exists rs, Matrix.coordinates s !! i = Some rs
                     /\ rs !! j = Some (x + y)%Z)
         /\ (exists rd, Matrix.coordinates d !! i = Some rd
                        /\ rd !! j = Some (x - y)%Z).
Proof.
  apply (add_sub_elements
           (Matrix.Build [[1; 2; 3]; [4; 5; 6]]%Z 2 3)
           (Matrix.Build [[10; 20; 30]; [40; 50; 60]]%Z 2 3)).
  - exists [[1; 2; 3]; [4; 5; 6]]%Z. reflexivity.
  - exists [[10; 20; 30]; [40; 50; 60]]%Z. reflexivity.
  - reflexivity.
Defined.

(** ** Columns *)

Lemma map_result_lookup {X Y : Type} (f : X -> result Y) (xs : list X)
    (ys : list Y) (i : nat) (x : X) :
  map_result f xs = Ok ys -> xs !! i = Some x ->
  exists y, f x = Ok y /\ ys !! i = Some y.
Proof.
  revert ys i. induction xs as [|x0 xs IH]; intros ys i Hys Hx; [done|].
  simpl in Hys. destruct (f x0) as [y0|] eqn:Hy0; [|done]. simpl in Hys.
  destruct (map_result f xs) as [ys'|] eqn:Hys'; [|done].
  injection Hys as <-. destruct i as [|i].
  - injection Hx as <-. by exists y0.
  - by apply (IH ys' i).
Qed.

Lemma map_result_length {X Y : Type} (f : X -> result Y) (xs : list X)
    (ys : list Y) :
  map_result f xs = Ok ys -> length ys = length xs.
Proof.
  revert ys. induction xs as [|x0 xs IH]; intros ys Hys.
  - by injection Hys as <-.
  - simpl in Hys. destruct (f x0) as [y0|]; [|done]. simpl in Hys.
    destruct (map_result f xs) as [ys'|]; [|done].
    injection Hys as <-. simpl. f_equal. by apply IH.
Qed.

(** The column built by indexing every row is the row of the unpacked
    [zip] at that position. *)
Lemma zip_star_lookup_column (rows : list (list Z)) (j : nat)
    (col : list Z) :
  rows ≠ [] ->
  map_result (fun x => list_getitem x (Z.of_nat j)) rows = Ok col ->
  zip_star rows !! j = Some col.
Proof.
  revert col. induction rows as [|r [|r' rest] IH]; intros col Hne Hcol;
    [done| |].
  - simpl in Hcol. rewrite list_getitem_of_nat in Hcol.
    destruct (r !! j) as [x|] eqn:Hx; [|done]. injection Hcol as <-.
    simpl. by rewrite list_lookup_fmap, Hx.
  - rewrite zip_star_cons.
    change (map_result _ (r :: r' :: rest))
      with (y <- list_getitem r (Z.of_nat j) ;;
            ys <- map_result (fun x => list_getitem x (Z.of_nat j))
                    (r' :: rest) ;;
            Ok (y :: ys)) in Hcol.
    rewrite list_getitem_of_nat in Hcol.
    destruct (r !! j) as [x|] eqn:Hx; [|done].
    cbv beta iota delta [bind] in Hcol.
    destruct (map_result _ (r' :: rest)) as [col'|] eqn:Hcol'; [|done].
    injection Hcol as <-.
    rewrite lookup_zip_with, Hx, (IH col') by done. done.
Qed.

(** Row [j] of [m.transpose()] is [m.get_col(j)], and its element [i] is
    the element [j] of row [i] of [m]. *)
Theorem transpose_rows_are_columns (m : Matrix.t) (j : nat) :
  Matrix.constructed m -> j < Matrix.w m ->
  exists mt col,
    Matrix.transpose m = Ok mt
    /\ Matrix.get_col m (Z.of_nat j) = Ok col
    /\ Matrix.getitem mt (Z.of_nat j) = Ok col
    /\ forall (i : nat) (row : list Z),
         Matrix.coordinates m !! i = Some row -> col !! i = row !! j.
Proof.
  intros Hm Hj. pose proof Hm as Hrect%constructed_rectangular.
  destruct (zip_star_shape _ _ _ Hrect) as [Hlen Hall].
  assert (rectangular (zip_star (Matrix.coordinates m))
            (Matrix.w m) (Matrix.h m)) as Hrect_t
    by (split; [done|]; split; [lia|done]).
  destruct (get_col_ok m j Hm Hj) as [col Hcol].
  exists (Matrix.Build (zip_star (Matrix.coordinates m))
            (Matrix.w m) (Matrix.h m)), col.
  split; [by apply init_rectangular|]. split; [done|]. split.
  - unfold Matrix.getitem. simpl. rewrite list_getitem_of_nat.
    rewrite (zip_star_lookup_column _ j col); [done| |done].
    destruct Hrect as (Hlen_m & Hpos & _).
    intros Hnil. rewrite Hnil in Hlen_m. simpl in Hlen_m. lia.
  - intros i row Hrow.
    destruct (map_result_lookup _ _ _ i row Hcol Hrow) as (y & Hy & ->).
    rewrite list_getitem_of_nat in Hy.
    by destruct (row !! j); [injection Hy as ->|].
Qed.

Lemma transpose_rows_are_columns_witness :
  let m := Matrix.Build [[1; 2; 3]; [4; 5; 6]]%Z 2 3 in
  exists mt col,
    Matrix.transpose m = Ok mt
    /\ Matrix.get_col m 2 = Ok col
    /\ Matrix.getitem mt 2 = Ok col
    /\ forall (i : nat) (row : list Z),
         Matrix.coordinates m !! i = Some row -> col !! i = row !! 2.
Proof.
  apply (transpose_rows_are_columns
           (Matrix.Build [[1; 2; 3]; [4; 5; 6]]%Z 2 3) 2).
  - exists [[1; 2; 3]; [4; 5; 6]]%Z. reflexivity.
  - simpl. lia.
Defined.

(** [m.get_col(col)] on a constructed matrix: an index outside
    [-w <= col < w] raises [IndexError]; inside, the call returns one
    element per row, and [j - w] names the same column as [j]. *)
Theorem get_col_either_end (m : Matrix.t) :
  Matrix.constructed m ->
  (forall idx : Z,
     (idx < - Z.of_nat (Matrix.w m) \/ Z.of_nat (Matrix.w m) <= idx)%Z ->
     Matrix.get_col m idx = Raise IndexError)
  /\ (forall j : nat,
        j < Matrix.w m ->
        exists col,
          Matrix.get_col m (Z.of_nat j) = Ok col
          /\ Matrix.get_col m (Z.of_nat j - Z.of_nat (Matrix.w m)) = Ok col
          /\ length col = Matrix.h m).
Proof.
  intros Hm. pose proof Hm as (Hlen & Hpos & Hall)%constructed_rectangular.
  split.
  - intros idx Hout. unfold Matrix.get_col.
    destruct (Matrix.coordinates m) as [|r0 rest]; [simpl in Hlen; lia|].
    inversion Hall as [|? ? Hr0 _]; subst. simpl.
    unfold list_getitem. rewrite Hr0.
    by rewrite (proj2 (py_index_outside _ idx) Hout).
  - intros j Hj. destruct (get_col_ok m j Hm Hj) as [col Hcol].
    exists col. split; [done|]. split.
    + rewrite <- Hcol. unfold Matrix.get_col.
      clear Hcol Hlen Hpos. induction Hall as [|row rows Hrow Hrows IH];
        [done|].
      simpl. rewrite IH. f_equal. unfold list_getitem. rewrite Hrow.
      rewrite py_index_of_nat, decide_True by done.
      replace (py_index _ _) with (Some j); [done|].
      symmetry. apply py_index_inside. right. split; lia.
    + unfold Matrix.get_col in Hcol.
      by rewrite (map_result_length _ _ _ Hcol).
Qed.

Lemma get_col_either_end_witness :
  let m := Matrix.Build [[1; 2; 3]; [4; 5; 6]]%Z 2 3 in
  Matrix.get_col m 3 = Raise IndexError
  /\ exists col,
       Matrix.get_col m 2 = Ok col
       /\ Matrix.get_col m (-1) = Ok col
       /\ length col = 2.
Proof.
  assert (Matrix.constructed (Matrix.Build [[1; 2; 3]; [4; 5; 6]]%Z 2 3))
    as Hm by (exists [[1; 2; 3]; [4; 5; 6]]%Z; reflexivity).
  split.
  - apply (proj1 (get_col_either_end _ Hm) 3%Z). simpl. lia.
  - apply (proj2 (get_col_either_end _ Hm) 2). simpl. lia.
Defined.

(** A constructed matrix without columns cannot be transposed: the
    unpacked [zip] yields no row and the constructor raises
    [IndexError]. *)
Theorem transpose_no_column_raises (m : Matrix.t) :
  Matrix.constructed m -> Matrix.w m = 0 ->
  Matrix.transpose m = Raise IndexError.
Proof.
  intros (Hlen & Hpos & Hall)%constructed_rectangular Hw.
  unfold Matrix.transpose.
  destruct (Matrix.coordinates m) as [|r0 rest]; [done|].
  inversion Hall as [|? ? Hr0 _]; subst. rewrite Hw in Hr0.
  destruct r0; [|done]. by destruct rest.
Qed.

Lemma transpose_no_column_raises_witness :
  Matrix.init [[]; []] = Ok (Matrix.Build [[]; []] 2 0)
  /\ Matrix.transpose (Matrix.Build [[]; []] 2 0) = Raise IndexError.
Proof.
  split; [reflexivity|].
  apply (transpose_no_column_raises (Matrix.Build [[]; []] 2 0)).
  - exists [[]; []]. reflexivity.
  - reflexivity.
Defined.

(** ** The elements of the product *)

Lemma for_each_app {X S : Type} (xs ys : list X)
    (body : X -> S -> result S) (s : S) :
  for_each (xs ++ ys) body s
  = (s' <- for_each xs body s ;; for_each ys body s').
Proof.
  revert s. induction xs as [|x xs IH]; intros s; [done|].
  simpl. destruct (body x s) as [s1|e]; [|done]. simpl. apply IH.
Qed.

Lemma get_col_ok_in_range (b : Matrix.t) (j : nat) (col : list Z) :
  Matrix.constructed b -> Matrix.get_col b (Z.of_nat j) = Ok col ->
  j < Matrix.w b.
Proof.
  intros (Hlen & Hpos & Hall)%constructed_rectangular.
  unfold Matrix.get_col.
  destruct (Matrix.coordinates b) as [|r0 rest]; [simpl in Hlen; lia|].
  inversion Hall as [|? ? Hr0 _]; subst. simpl.
  rewrite list_getitem_of_nat.
  destruct (r0 !! j) as [x|] eqn:Hx; [|done].
  intros _. apply lookup_lt_Some in Hx. lia.
Qed.

Section ProductEntries.

Variable b : Matrix.t.
Hypothesis Hb : Matrix.constructed b.

(** Column [j] of [b], for [j] in range. *)
Let col_of (j : nat) : list Z :=
  match Matrix.get_col b (Z.of_nat j) with
  | Ok col => col
  | Raise _ => []
  end.

Let entry (row_a : list Z) (j : nat) : Z := Matrix.dot row_a (col_of j).

(** The inner loop after [t] columns: row [i] of the buffer holds the
    first [t] dot products, then what it held before. *)
Lemma inner_loop_prefix (row_a old : list Z) (i t : nat)
    (buffer : list (list Z)) :
  buffer !! i = Some old -> t <= Matrix.w b -> t <= length old ->
  for_each (seq 0 t)
    (fun j res' =>
       col <- Matrix.get_col b (Z.of_nat j) ;;
       Matrix.store res' i j (Matrix.dot row_a col))
    buffer
  = Ok (<[i := map (entry row_a) (seq 0 t) ++ drop t old]> buffer).
Proof.
  intros Hold. pose proof (lookup_lt_Some _ _ _ Hold) as Hi.
  induction t as [|t IH]; intros Hw Hlen.
  - simpl. by rewrite list_insert_id.
  - rewrite seq_S, for_each_app, IH by lia. simpl.
    destruct (get_col_ok b t Hb) as [col Hcol]; [lia|].
    rewrite Hcol. simpl. unfold Matrix.store.
    rewrite list_getitem_of_nat.
    rewrite list_lookup_insert_eq by done. simpl.
    rewrite list_setitem_of_nat.
    rewrite decide_True
      by (rewrite length_app, length_map, length_seq, length_drop; lia).
    simpl. rewrite list_insert_insert_eq. do 2 f_equal.
    destruct (lookup_lt_is_Some_2 old t) as [x Hx]; [lia|].
    rewrite insert_app_r_alt by (rewrite length_map, length_seq; lia).
    rewrite length_map, length_seq, Nat.sub_diag.
    rewrite (drop_S old x t Hx). simpl.
    rewrite map_app, <- app_assoc. simpl.
    do 2 f_equal. unfold entry, col_of. by rewrite Hcol.
Qed.

(** The product of the rows [rows_a] with [b]. *)
Let product_rows (rows_a : list (list Z)) : list (list Z) :=
  map (fun row_a => map (entry row_a) (seq 0 (Matrix.w b))) rows_a.

(** The outer loop after [t] rows, on a buffer whose rows are as long as
    [b] is wide. *)
Lemma outer_loop_prefix (rows_a buffer : list (list Z)) (t : nat) :
  length buffer = length rows_a ->
  Forall (fun row => length row = Matrix.w b) buffer ->
  t <= length rows_a ->
  for_each (take t (enumerate rows_a))
    (fun '(i, row_a) res =>
       for_each (seq 0 (Matrix.w b))
         (fun j res' =>
            col <- Matrix.get_col b (Z.of_nat j) ;;
            Matrix.store res' i j (Matrix.dot row_a col))
         res)
    buffer
  = Ok (product_rows (take t rows_a) ++ drop t buffer).
Proof.
  intros Hlen Hall. induction t as [|t IH]; intros Ht; [done|].
  destruct (lookup_lt_is_Some_2 rows_a t) as [row_a Hrow]; [lia|].
  destruct (lookup_lt_is_Some_2 buffer t) as [old Hold]; [lia|].
  assert (enumerate rows_a !! t = Some (t, row_a)) as Hpair.
  { unfold enumerate. rewrite lookup_zip_with.
    rewrite lookup_seq_lt by lia. simpl. by rewrite Hrow. }
  rewrite (take_S_r _ _ _ Hpair), for_each_app, IH by lia. simpl.
  assert (length old = Matrix.w b) as Hold_len.
  { rewrite Forall_lookup in Hall. eauto. }
  assert (length (product_rows (take t rows_a)) = t) as Hdone.
  { unfold product_rows. rewrite length_map, length_take. lia. }
  rewrite (inner_loop_prefix row_a old t (Matrix.w b)); [|
    by rewrite lookup_app_r, Hdone, Nat.sub_diag, lookup_drop,
         Nat.add_0_r by lia
    | done | lia].
  simpl. f_equal.
  rewrite drop_ge, app_nil_r by lia.
  rewrite insert_app_r_alt, Hdone, Nat.sub_diag by lia.
  rewrite (drop_S buffer old t Hold). simpl.
  rewrite (take_S_r _ _ _ Hrow). unfold product_rows.
  by rewrite map_app, <- app_assoc.
Qed.

(** The loops on the buffer of zeros, when it is square. *)
Lemma mul_loops_square (a : Matrix.t) :
  Matrix.constructed a -> Matrix.h a = Matrix.w b ->
  Matrix.mul_loops a b (Matrix.zeros a b)
  = Ok (product_rows (Matrix.coordinates a)).
Proof.
  intros (Hlen & Hpos & _)%constructed_rectangular Hsq.
  destruct (zeros_sized a b) as [Hz_len Hz_all].
  unfold Matrix.mul_loops.
  rewrite <- (take_ge (enumerate (Matrix.coordinates a))
                (length (Matrix.coordinates a)))
    by (by rewrite enumerate_length).
  rewrite outer_loop_prefix; [| lia | by rewrite <- Hsq | done].
  by rewrite take_ge, drop_ge, app_nil_r by lia.
Qed.

(** When the product returns, that is for [a] of shape [(h, k)] and [b]
    of shape [(k, h)], the element at [(i, j)] of [a * b] is the dot
    product of row [i] of [a] and column [j] of [b]. *)
Theorem mul_square_elements (a : Matrix.t) :
  Matrix.constructed a ->
  Matrix.w a = Matrix.h b -> Matrix.h a = Matrix.w b ->
  exists p,
    Matrix.mul a (Matrix.OMatrix b) = Ok p
    /\ Matrix.shape p = Ok (Matrix.h a, Matrix.w b)
    /\ forall (i j : nat) (row col : list Z),
         Matrix.coordinates a !! i = Some row ->
         Matrix.get_col b (Z.of_nat j) = Ok col ->
         exists row_p, Matrix.coordinates p !! i = Some row_p
                       /\ row_p !! j = Some (Matrix.dot row col).
Proof.
  intros Ha Hk Hsq.
  pose proof Ha as (Hlen & Hpos & _)%constructed_rectangular.
  assert (rectangular (product_rows (Matrix.coordinates a))
            (Matrix.h a) (Matrix.w b)) as Hrect.
  { split; [by unfold product_rows; rewrite length_map|]. split; [done|].
    apply Forall_map, Forall_true. intros row. simpl.
    by rewrite length_map, length_seq. }
  exists (Matrix.Build (product_rows (Matrix.coordinates a))
            (Matrix.h a) (Matrix.w b)).
  split; [|split].
  - unfold Matrix.mul. rewrite Hk, Nat.eqb_refl.
    rewrite (mul_loops_square a Ha Hsq). simpl.
    by apply init_rectangular.
  - by apply (shape_constructed (Matrix.Build _ _ _)), constructed_build.
  - intros i j row col Hrow Hcol. simpl.
    pose proof (get_col_ok_in_range b j col Hb Hcol) as Hj.
    exists (map (entry row) (seq 0 (Matrix.w b))). split.
    + unfold product_rows. by rewrite list_lookup_fmap, Hrow.
    + rewrite list_lookup_fmap, lookup_seq_lt by done. simpl.
      unfold entry, col_of. by rewrite Hcol.
Qed.

End ProductEntries.

Lemma mul_square_elements_witness :
  let a := Matrix.Build [[1; 2; 3]; [4; 5; 6]]%Z 2 3 in
  let b := Matrix.Build [[10; 11]; [20; 21]; [30; 31]]%Z 3 2 in
  exists p,
    Matrix.mul a (Matrix.OMatrix b) = Ok p
    /\ Matrix.shape p = Ok (2, 2)
    /\ forall (i j : nat) (row col : list Z),
         Matrix.coordinates a !! i = Some row ->
         Matrix.get_col b (Z.of_nat j) = Ok col ->
         exists row_p, Matrix.coordinates p !! i = Some row_p
                       /\ row_p !! j = Some (Matrix.dot row col).
Proof.
  apply (mul_square_elements
           (Matrix.Build [[10; 11]; [20; 21]; [30; 31]]%Z 3 2)
           (ex_intro _ [[10; 11]; [20; 21]; [30; 31]]%Z eq_refl)
           (Matrix.Build [[1; 2; 3]; [4; 5; 6]]%Z 2 3)).
  - exists [[1; 2; 3]; [4; 5; 6]]%Z. reflexivity.
  - reflexivity.
  - reflexivity.
Defined.

(** ** Incompatible operands *)

Lemma compatible_message_contains (a b : Matrix.t) (sa sb : nat * nat) :
  Matrix.shape a = Ok sa -> Matrix.shape b = Ok sb ->
  exists msg, Matrix.compatible_message a b = Ok msg
              /\ contains msg (Matrix.repr_shape sa)
              /\ contains msg (Matrix.repr_shape sb).
Proof.
  intros Hsa Hsb. unfold Matrix.compatible_message. rewrite Hsa, Hsb. simpl.
  eexists. split; [done|]. split.
  - do 5 apply contains_later. apply contains_here.
  - do 10 apply contains_later. apply contains_end.
Qed.

(** For constructed matrices [a] and [b] where the width of [a] is not the
    height of [b], [a * b] raises a [ValueError] whose message contains
    the shapes of both operands. *)
Theorem mul_incompatible_raises (a b : Matrix.t) :
  Matrix.constructed a -> Matrix.constructed b ->
  Matrix.w a ≠ Matrix.h b ->
  exists msg,
    Matrix.mul a (Matrix.OMatrix b) = Raise (ValueError msg)
    /\ contains msg (Matrix.repr_shape (Matrix.h a, Matrix.w a))
    /\ contains msg (Matrix.repr_shape (Matrix.h b, Matrix.w b)).
Proof.
  intros Ha Hb Hne.
  destruct (compatible_message_contains a b _ _
              (shape_constructed a Ha) (shape_constructed b Hb))
    as (msg & Hmsg & Hin_a & Hin_b).
  exists msg. unfold Matrix.mul.
  replace (Matrix.w a =? Matrix.h b) with false
    by (symmetry; by apply Nat.eqb_neq).
  by rewrite Hmsg.
Qed.

Lemma mul_incompatible_raises_witness :
  let a := Matrix.Build [[1; 2; 3]; [4; 5; 6]]%Z 2 3 in
  exists msg,
    Matrix.mul a (Matrix.OMatrix a) = Raise (ValueError msg)
    /\ contains msg "(2, 3)"
    /\ contains msg "(2, 3)".
Proof.
  apply (mul_incompatible_raises
           (Matrix.Build [[1; 2; 3]; [4; 5; 6]]%Z 2 3)
           (Matrix.Build [[1; 2; 3]; [4; 5; 6]]%Z 2 3)).
  - exists [[1; 2; 3]; [4; 5; 6]]%Z. reflexivity.
  - exists [[1; 2; 3]; [4; 5; 6]]%Z. reflexivity.
  - simpl. lia.
Defined.

(** ** What the operators return *)

Lemma init_returns_constructed (rows : list (list Z)) (p : Matrix.t) :
  Matrix.init rows = Ok p ->
  Matrix.constructed p /\ Matrix.shape p = Ok (Matrix.h p, Matrix.w p).
Proof.
  intros Hp. assert (Matrix.constructed p) as Hc by (by exists rows).
  split; [done|]. by apply shape_constructed.
Qed.

Lemma add_returns_constructed (m other p : Matrix.t) :
  Matrix.add m other = Ok p ->
  Matrix.constructed p /\ Matrix.shape p = Ok (Matrix.h p, Matrix.w p).
Proof.
  unfold Matrix.add.
  destruct (Matrix.shape other) as [so|]; [|done].
  destruct (Matrix.shape m) as [sm|]; [|done]. simpl.
  destruct (Matrix.shape_eqb so sm).
  - apply init_returns_constructed.
  - by destruct (Matrix.same_shape_message m other).
Qed.

(** Whatever state the operands are in, a matrix returned by [-m],
    [m + other], [m - other], [m.transpose()] or [m * other] passed the
    constructor: its rows have one length, and its stored sizes are its
    shape. *)
Theorem returned_matrix_is_constructed
    (m other : Matrix.t) (op : Matrix.operand) (p : Matrix.t) :
  Matrix.neg m = Ok p \/ Matrix.add m other = Ok p
  \/ Matrix.sub m other = Ok p \/ Matrix.transpose m = Ok p
  \/ Matrix.mul m op = Ok p ->
  Matrix.constructed p
  /\ rectangular (Matrix.coordinates p) (Matrix.h p) (Matrix.w p)
  /\ Matrix.shape p = Ok (Matrix.h p, Matrix.w p).
Proof.
  intros Hop.
  assert (Matrix.constructed p
          /\ Matrix.shape p = Ok (Matrix.h p, Matrix.w p)) as [Hc Hs].
  { destruct Hop as [Hp|[Hp|[Hp|[Hp|Hp]]]].
    - by eapply init_returns_constructed.
    - by eapply add_returns_constructed.
    - unfold Matrix.sub in Hp.
      destruct (Matrix.shape other) as [so|]; [|done].
      destruct (Matrix.shape m) as [sm|]; [|done]. simpl in Hp.
      destruct (Matrix.shape_eqb so sm).
      + destruct (Matrix.neg other) as [n|]; [|done].
        by eapply add_returns_constructed.
      + by destruct (Matrix.same_shape_message m other).
    - by eapply init_returns_constructed.
    - unfold Matrix.mul in Hp. destruct op as [b|k|]; [| |done].
      + destruct (Matrix.w m =? Matrix.h b).
        * destruct (Matrix.mul_loops m b (Matrix.zeros m b)) as [res|];
            [|done].
          by eapply init_returns_constructed.
        * by destruct (Matrix.compatible_message m b).
      + by eapply init_returns_constructed. }
  split; [done|]. split; [by apply constructed_rectangular|done].
Qed.

Lemma returned_matrix_is_constructed_witness :
  let broken := Matrix.Build [[1; 2; 3]; [4; 5; 6]; [7; 8; 9]]%Z 2 2 in
  let p := Matrix.Build [[1; 4; 7]; [2; 5; 8]; [3; 6; 9]]%Z 3 3 in
  Matrix.transpose broken = Ok p
  /\ Matrix.constructed p
  /\ rectangular (Matrix.coordinates p) (Matrix.h p) (Matrix.w p)
  /\ Matrix.shape p = Ok (Matrix.h p, Matrix.w p).
Proof.
  split; [reflexivity|].
  apply (returned_matrix_is_constructed
           (Matrix.Build [[1; 2; 3]; [4; 5; 6]; [7; 8; 9]]%Z 2 2)
           (Matrix.Build [[1; 2; 3]; [4; 5; 6]; [7; 8; 9]]%Z 2 2)
           Matrix.OOther).
  do 3 right. left. reflexivity.
Defined.

(** ** Vectors, continued *)

Section MoreVectorFacts.

Context {A : Type} `{PyNumber A}.

Local Abbreviation coords := Vector.coordinates.

Lemma zip_with_flip (f : A -> A -> A) (us vs : list A) :
  (forall x y, f x y = f y x) -> zip_with f us vs = zip_with f vs us.
Proof.
  intros Hf. revert vs. induction us as [|a us IH]; intros [|b vs]; try done.
  simpl. by rewrite Hf, IH.
Qed.

(** Where the product of two coordinates does not depend on their order,
    the dot product of two vectors of equal length does not depend on the
    order of the operands. *)
Theorem dot_product_symmetric (u v : Vector.t A) :
  (forall x y : A, py_mul x y = py_mul y x) ->
  length (coords u) = length (coords v) ->
  Vector.mul u (Vector.OVector v) = Vector.mul v (Vector.OVector u)
  /\ exists x, Vector.mul u (Vector.OVector v) = Ok (Vector.VScalar x).
Proof.
  intros Hcomm Hlen. unfold Vector.mul. rewrite Hlen, Nat.eqb_refl.
  split; [|by eexists].
  by rewrite (zip_with_flip _ (coords v) (coords u)).
Qed.

Context {B : Type} `{PyDivision A B}.

(** Vectors of different lengths: the dot product and the division raise
    the same [ValueError], whose message says "Cannot multiply" for both
    and contains the [repr] of both operands. *)
Theorem length_mismatch_raises (u v : Vector.t A) :
  length (coords u) ≠ length (coords v) ->
  Vector.mul u (Vector.OVector v)
  = Raise (ValueError (Vector.cannot_multiply u v))
  /\ Vector.truediv u (Vector.OVector v)
     = Raise (ValueError (Vector.cannot_multiply u v))
  /\ contains (Vector.cannot_multiply u v) "Cannot multiply "
  /\ contains (Vector.cannot_multiply u v) (Vector.repr u)
  /\ contains (Vector.cannot_multiply u v) (Vector.repr v).
Proof.
  intros Hlen. unfold Vector.mul, Vector.truediv.
  replace (length (coords v) =? length (coords u)) with false
    by (symmetry; apply Nat.eqb_neq; lia).
  repeat split; unfold Vector.cannot_multiply.
  - apply contains_here.
  - apply contains_later, contains_here.
  - do 3 apply contains_later. apply contains_end.
Qed.

(** Division by an [int] scalar [k]: the vector without coordinates is
    returned as it is, whatever [k] is, zero included; when every quotient
    [a / k] evaluates without raising, the call returns the vector of the
    quotients; and where division by zero raises [ZeroDivisionError], a
    vector with a coordinate divided by [0] raises it. *)
Theorem truediv_scalar_outcomes (u : Vector.t A) (k : Z) :
  (coords u = [] ->
   Vector.truediv u (Vector.OScalar k)
   = Ok (Vector.VVector (Vector.Build [])))
  /\ (forall qs : list B,
        Forall2 (fun a q => py_truediv_int a k = Ok q) (coords u) qs ->
        Vector.truediv u (Vector.OScalar k)
        = Ok (Vector.VVector (Vector.Build qs)))
  /\ ((forall a : A, py_truediv_int a 0 = Raise ZeroDivisionError) ->
      k = 0%Z -> coords u ≠ [] ->
      Vector.truediv u (Vector.OScalar k) = Raise ZeroDivisionError).
Proof.
  unfold Vector.truediv. split; [|split].
  - by intros ->.
  - intros qs Hqs.
    assert (map_result (fun a => py_truediv_int a k) (coords u) = Ok qs)
      as ->; [|done].
    induction Hqs as [|a q us qs Hq Hqs IH]; [done|].
    simpl. rewrite Hq. simpl. by rewrite IH.
  - intros Hlaw -> Hne. destruct (coords u) as [|a us]; [done|].
    simpl. by rewrite Hlaw.
Qed.

End MoreVectorFacts.

Lemma Qmult_swap (x y : Q) : Qmult x y = Qmult y x.
Proof.
  unfold Qmult. f_equal; [apply Z.mul_comm|apply Pos.mul_comm].
Qed.

Lemma dot_product_symmetric_witness :
  let u := Vector.Build [1; 2; 3]%Q in
  let v := Vector.Build [4; 5; 6]%Q in
  Vector.mul u (Vector.OVector v) = Vector.mul v (Vector.OVector u)
  /\ exists x, Vector.mul u (Vector.OVector v) = Ok (Vector.VScalar x).
Proof.
  apply (dot_product_symmetric
           (Vector.Build [1; 2; 3]%Q) (Vector.Build [4; 5; 6]%Q)).
  - exact Qmult_swap.
  - reflexivity.
Defined.

Lemma length_mismatch_raises_witness :
  let u := Vector.Build [1; 2; 3]%Q in
  let v := Vector.Build [4]%Q in
  Vector.mul u (Vector.OVector v)
  = Raise (ValueError (Vector.cannot_multiply u v))
  /\ Vector.truediv u (Vector.OVector v)
     = (Raise (ValueError (Vector.cannot_multiply u v))
        : result (Vector.value Q))
  /\ contains (Vector.cannot_multiply u v) "Cannot multiply "
  /\ contains (Vector.cannot_multiply u v) (Vector.repr u)
  /\ contains (Vector.cannot_multiply u v) (Vector.repr v).
Proof.
  apply (length_mismatch_raises
           (Vector.Build [1; 2; 3]%Q) (Vector.Build [4]%Q)).
  simpl. lia.
Defined.

Lemma truediv_scalar_outcomes_witness :
  let u := Vector.Build [4; 5; 6]%Z in
  Vector.truediv u (Vector.OScalar 2)
  = Ok (Vector.VVector
          (Vector.Build [FQuotient 4 2; FQuotient 5 2; FQuotient 6 2]))
  /\ Vector.truediv u (Vector.OScalar 0)
     = (Raise ZeroDivisionError
        : result (Vector.value float_value)).
Proof.
  split.
  - apply (proj1 (proj2 (truediv_scalar_outcomes
                           (Vector.Build [4; 5; 6]%Z) 2%Z))).
    repeat constructor.
  - apply (proj2 (proj2 (truediv_scalar_outcomes
                           (Vector.Build [4; 5; 6]%Z) 0%Z))).
    + intros a. reflexivity.
    + reflexivity.
    + discriminate.
Defined.

(** For vectors of [Fraction]s: [(u + v) - v] is, coordinate by coordinate
    and as rational numbers, the first [len(v)] coordinates of [u]; it is
    all of [u] when [v] is at least as long. *)
Theorem add_then_sub_fractions (u v : Vector.t Q) :
  Forall2 Qeq
    (Vector.coordinates (Vector.sub (Vector.add u v) v))
    (take (length (Vector.coordinates v)) (Vector.coordinates u)).
Proof.
  unfold Vector.sub, Vector.add. simpl.
  generalize (Vector.coordinates v) as vs.
  induction (Vector.coordinates u) as [|a us IH]; intros [|b vs];
    simpl; try constructor.
  - ring.
  - apply IH.
Qed.
